(** * The CCXT broker of bt-ccxt-store: order reconciliation, submission,
      cancellation and position closing

    A shallow embedding of [src/ccxtbt/ccxtbroker.py].  The broker is a Python
    object whose methods mutate it in place and may raise; here a method is a
    function from the broker state to the broker state and a result, so that
    what was mutated before an exception is still visible after it.

    - JSON values coming from the exchange are [scalar]s (None, booleans,
      numbers, strings), flat dictionaries of scalars (a fill, a position
      entry) and lists of such dictionaries; a snapshot is a dictionary of
      those values.  Numbers are integers: the broker compares them with
      zero, negates them, takes absolute values and adds up executed sizes,
      which gives the same on the floats that hold such numbers; a numeral
      with a fraction has no counterpart.
    - Order objects live in a heap indexed by their [ref] (backtrader compares
      orders by [ref]); the open-order list and the notification queue hold
      references, so an order notified at submission and completed later is
      one object seen from both places.
    - The store ([ccxtstore.py]) and the exchange behind it are a collaborator:
      a record of operations over an abstract store state.  Every order,
      balance and position call the broker issues is appended to a call
      log.
    - [print] and [json.dumps] under [debug] write to the console only and are
      left out. *)

From Stdlib Require Import ZArith Ascii String List Bool Lia.
From stdpp Require Import base option numbers list strings gmap fin_maps.

Local Open Scope Z_scope.
Local Open Scope string_scope.
Local Open Scope list_scope.

(** ** Python values *)

Inductive scalar :=
| SNone
| SBool (b : bool)
| SNum (z : Z)
| SStr (s : string).

#[global] Instance scalar_eq_dec : EqDecision scalar.
Proof. solve_decision. Defined.

Inductive pyval :=
| VScalar (x : scalar)
| VDict (d : gmap string scalar)
| VList (l : list (gmap string scalar)).

#[global] Instance pyval_eq_dec : EqDecision pyval.
Proof. solve_decision. Defined.

(** Python's [==] puts [True] and [1] (and [False] and [0]) together. *)
Definition as_number (x : scalar) : scalar :=
  match x with
  | SBool b => SNum (Z.b2z b)
  | _ => x
  end.

Definition scalar_eqb (x y : scalar) : bool :=
  bool_decide (as_number x = as_number y).

Definition dict_eqb (d1 d2 : gmap string scalar) : bool :=
  bool_decide (as_number <$> d1 = as_number <$> d2).

(** [a == b]: values of different kinds are never equal. *)
Definition py_eqb (a b : pyval) : bool :=
  match a, b with
  | VScalar x, VScalar y => scalar_eqb x y
  | VDict d1, VDict d2 => dict_eqb d1 d2
  | VList l1, VList l2 =>
      bool_decide (Forall2 (fun d1 d2 => dict_eqb d1 d2 = true) l1 l2)
  | _, _ => false
  end.

(** [x in l] *)
Definition py_in (x : pyval) (l : list pyval) : bool :=
  existsb (fun e => py_eqb e x) l.

(** ** Exceptions and results *)

Inductive exn :=
| KeyError (k : string)
| ValueError
| TypeError
| IndexError
| ZeroDivisionError
| ExchangeError (msg : string)
| Dangling (r : nat).
(* [ExchangeError] stands for whatever the store raises (network,
   authentication, rate limit).  [Dangling] is a reference that is not in the
   heap; no Python program can produce one. *)

Inductive result (A : Type) :=
| Ok (a : A)
| Raise (e : exn).
Arguments Ok {A} a.
Arguments Raise {A} e.

Definition is_ok {A} (r : result A) : bool :=
  match r with Ok _ => true | Raise _ => false end.

(** [d[k]] *)
Definition getitem {V} (d : gmap string V) (k : string) : result V :=
  match d !! k with
  | Some v => Ok v
  | None => Raise (KeyError k)
  end.

(** [v[k]] for a string key: only dictionaries can be subscripted by it. *)
Definition subscript (v : pyval) (k : string) : result scalar :=
  match v with
  | VDict d => getitem d k
  | _ => Raise TypeError
  end.

Fixpoint chars (s : string) : list pyval :=
  match s with
  | EmptyString => []
  | String c s' => VScalar (SStr (String c EmptyString)) :: chars s'
  end.

(** The elements a [for] loop over a value visits.  A dictionary yields its
    keys (Python in insertion order, here in the order of [map_to_list]). *)
Definition py_iter (v : pyval) : result (list pyval) :=
  match v with
  | VList l => Ok (VDict <$> l)
  | VDict d => Ok ((fun kv => VScalar (SStr kv.1)) <$> map_to_list d)
  | VScalar (SStr s) => Ok (chars s)
  | VScalar _ => Raise TypeError
  end.

(** A number as Python arithmetic sees it: booleans count as 0 and 1. *)
Definition numeric (x : scalar) : result Z :=
  match x with
  | SNum z => Ok z
  | SBool b => Ok (Z.b2z b)
  | _ => Raise TypeError
  end.

(** Truth value of a scalar in an [if]: None, False, 0 and the empty string
    are false. *)
Definition truthy (x : scalar) : bool :=
  match x with
  | SNone => false
  | SBool b => b
  | SNum z => negb (Z.eqb z 0)
  | SStr s => negb (String.eqb s "")
  end.

(** *** Reading a number from a string

    [float(s)] strips white space and reads an optional sign, digits with an
    optional fraction and an optional exponent.  Numbers are integers here,
    so the reading succeeds when the value is whole ("2", " 2.0 ", "-3.",
    "15e-1" is not, "1.5e1" is); a string that denotes a number with a
    fraction, an infinity or a NaN has no counterpart and is refused like a
    string that is no number. *)

Definition is_space (c : Ascii.ascii) : bool :=
  let n := Ascii.nat_of_ascii c in
  Nat.eqb n 32 || (Nat.leb 9 n && Nat.leb n 13).

Fixpoint lstrip (s : string) : string :=
  match s with
  | String c s' => if is_space c then lstrip s' else s
  | EmptyString => EmptyString
  end.

Fixpoint string_rev_onto (s acc : string) : string :=
  match s with
  | String c s' => string_rev_onto s' (String c acc)
  | EmptyString => acc
  end.

Definition strip (s : string) : string :=
  string_rev_onto (lstrip (string_rev_onto (lstrip s) "")) "".

Definition digit_of (c : Ascii.ascii) : option Z :=
  let n := Ascii.nat_of_ascii c in
  if Nat.leb 48 n && Nat.leb n 57 then Some (Z.of_nat (n - 48)) else None.

(** Reads a run of digits onto [acc]; gives the value, the number of digits
    read and the rest. *)
Fixpoint read_digits (s : string) (acc : Z) (n : nat) : Z * nat * string :=
  match s with
  | String c s' =>
      match digit_of c with
      | Some d => read_digits s' (10 * acc + d) (S n)
      | None => (acc, n, s)
      end
  | EmptyString => (acc, n, s)
  end.

(** An optional sign: whether it is a minus, and the rest. *)
Definition read_sign (s : string) : bool * string :=
  match s with
  | String c s' =>
      if Ascii.eqb c "-" then (true, s')
      else if Ascii.eqb c "+" then (false, s')
      else (false, s)
  | EmptyString => (false, s)
  end.

(** The exponent part, if any; [None] when what follows the mantissa is not
    an exponent. *)
Definition read_exponent (s : string) : option Z :=
  match s with
  | EmptyString => Some 0
  | String c s' =>
      if Ascii.eqb c "e" || Ascii.eqb c "E" then
        let '(neg, s1) := read_sign s' in
        let '(e, n, s2) := read_digits s1 0 0 in
        match n, s2 with
        | S _, EmptyString => Some (if neg : bool then - e else e)
        | _, _ => None
        end
      else None
  end.

Definition float_of_string (s : string) : option Z :=
  let '(neg, s1) := read_sign (strip s) in
  let '(ip, ni, s2) := read_digits s1 0 0 in
  let '(m, nf, s3) :=
    match s2 with
    | String c s' =>
        if Ascii.eqb c "." then read_digits s' ip 0 else (ip, 0%nat, s2)
    | EmptyString => (ip, 0%nat, s2)
    end in
  if Nat.eqb (ni + nf) 0 then None
  else
    match read_exponent s3 with
    | None => None
    | Some e =>
        let k := e - Z.of_nat nf in
        let whole :=
          if Z.leb 0 k then Some (m * 10 ^ k)
          else if Z.eqb (m mod 10 ^ (- k)) 0 then Some (m / 10 ^ (- k))
          else None in
        match whole with
        | Some v => Some (if neg : bool then - v else v)
        | None => None
        end
    end.

(** [float(v)] *)
Definition py_float (v : pyval) : result Z :=
  match v with
  | VScalar (SNum z) => Ok z
  | VScalar (SBool b) => Ok (Z.b2z b)
  | VScalar (SStr s) =>
      match float_of_string s with
      | Some z => Ok z
      | None => Raise ValueError
      end
  | _ => Raise TypeError
  end.

(** [str.replace(c, '')] for a one-character [c]. *)
Fixpoint remove_char (c : Ascii.ascii) (s : string) : string :=
  match s with
  | EmptyString => EmptyString
  | String a s' =>
      if Ascii.eqb a c then remove_char c s' else String a (remove_char c s')
  end.

(** [l.remove(x)]: drops the first element equal to [x]; [None] stands for the
    [ValueError] of a list that has no such element. *)
Fixpoint list_remove_first (x : nat) (l : list nat) : option (list nat) :=
  match l with
  | [] => None
  | y :: l' =>
      if decide (y = x) then Some l'
      else cons y <$> list_remove_first x l'
  end.

(** ** The data feed, the order object and the mapping table *)

Record Data := {
  dataname : string;    (* data.p.dataname *)
  _dataname : string;   (* data._dataname *)
  clock_ms : Z          (* int(data.datetime.datetime(0).timestamp() * 1000) *)
}.

Inductive OrdType := Buy | Sell.

(* backtrader's Order.Status *)
Inductive Status :=
| Created | Submitted | Accepted | Partial | Completed
| Canceled | Expired | Margin | Rejected.

#[global] Instance Status_eq_dec : EqDecision Status.
Proof. solve_decision. Defined.

(* backtrader's Order.ExecTypes *)
Inductive ExecType :=
| Market | Close | Limit | Stop | StopLimit | StopTrail | StopTrailLimit
| Historical.

Module CCXTOrder.

(** [executed] is the list of the execution bits stored by [execute]
    (datetime, size, price), oldest first. *)
Record t := {
  owner : nat;
  data : Data;
  ccxt_order : gmap string pyval;
  executed_fills : list pyval;
  ordtype : OrdType;
  size : Z;
  price : pyval;
  status : Status;
  executed : list (scalar * scalar * scalar)
}.

(** [CCXTOrder.__init__]; the base class initialiser called last leaves the
    order in status [Created] and turns the size of an order that is not a
    buy into its negative. *)
Definition init (owner : nat) (data : Data) (ccxt_order : gmap string pyval)
  : result t :=
  match getitem ccxt_order "side" with
  | Raise e => Raise e
  | Ok side =>
      match getitem ccxt_order "amount" with
      | Raise e => Raise e
      | Ok amount =>
          match py_float amount with
          | Raise e => Raise e
          | Ok sz =>
              Ok {| owner := owner;
                    data := data;
                    ccxt_order := ccxt_order;
                    executed_fills := [];
                    ordtype := if py_eqb side (VScalar (SStr "buy"))
                               then Buy else Sell;
                    size := if py_eqb side (VScalar (SStr "buy"))
                            then sz else - sz;
                    price := VScalar SNone;
                    status := Created;
                    executed := [] |}
          end
      end
  end.

Definition with_fills (fs : list pyval) (o : t) : t :=
  {| owner := owner o; data := data o; ccxt_order := ccxt_order o;
     executed_fills := fs; ordtype := ordtype o; size := size o;
     price := price o; status := status o; executed := executed o |}.

Definition with_executed (ex : list (scalar * scalar * scalar)) (o : t) : t :=
  {| owner := owner o; data := data o; ccxt_order := ccxt_order o;
     executed_fills := executed_fills o; ordtype := ordtype o;
     size := size o; price := price o; status := status o;
     executed := ex |}.

Definition with_status (st : Status) (o : t) : t :=
  {| owner := owner o; data := data o; ccxt_order := ccxt_order o;
     executed_fills := executed_fills o; ordtype := ordtype o;
     size := size o; price := price o; status := st;
     executed := executed o |}.

Definition with_price (p : pyval) (o : t) : t :=
  {| owner := owner o; data := data o; ccxt_order := ccxt_order o;
     executed_fills := executed_fills o; ordtype := ordtype o;
     size := size o; price := p; status := status o;
     executed := executed o |}.

End CCXTOrder.

Module Mapping.

Record entry := { key : string; value : pyval }.

Record t := { closed_order : entry; canceled_order : entry }.

(** [CCXTBroker.mappings] *)
Definition default : t :=
  {| closed_order := {| key := "status"; value := VScalar (SStr "closed") |};
     canceled_order :=
       {| key := "status"; value := VScalar (SStr "canceled") |} |}.

End Mapping.

(** [CCXTBroker.order_types] *)
Definition default_order_types (e : ExecType) : option string :=
  match e with
  | Market => Some "market"
  | Limit => Some "limit"
  | Stop => Some "stop"
  | StopLimit => Some "stop limit"
  | _ => None
  end.

(** ** The store *)

Module CCXTStore.

(** What the broker uses of [CCXTStore], over the store's own state [W]
    (which includes the exchange the store talks to). *)
Record t (W : Type) := {
  _cash : W -> Z;
  _value : W -> Z;
  get_balance : W -> W * result unit;
  fetch_order :
    pyval -> string -> gmap string pyval -> W ->
    W * result (gmap string pyval);
  create_order :
    string -> string -> string -> Z -> option Z -> gmap string pyval -> W ->
    W * result (gmap string pyval);
  cancel_order :
    pyval -> string -> gmap string pyval -> W ->
    W * result (gmap string pyval);
  get_binance_positions : W -> W * result (list (gmap string scalar))
}.
Arguments _cash {W}.
Arguments _value {W}.
Arguments get_balance {W}.
Arguments fetch_order {W}.
Arguments create_order {W}.
Arguments cancel_order {W}.
Arguments get_binance_positions {W}.

End CCXTStore.

(** The calls issued to the store, with their arguments. *)
Inductive Call :=
| CallGetBalance
| CallFetchOrder (oid : pyval) (symbol : string) (params : gmap string pyval)
| CallCreateOrder (symbol order_type side : string) (amount : Z)
    (price : option Z) (params : gmap string pyval)
| CallCancelOrder (oid : pyval) (symbol : string) (params : gmap string pyval)
| CallGetPositions.

Definition is_cancel_call (c : Call) : bool :=
  match c with CallCancelOrder _ _ _ => true | _ => false end.

Definition is_create_call (c : Call) : bool :=
  match c with CallCreateOrder _ _ _ _ _ _ => true | _ => false end.

Definition is_fetch_call (c : Call) : bool :=
  match c with CallFetchOrder _ _ _ => true | _ => false end.

Definition is_balance_call (c : Call) : bool :=
  match c with CallGetBalance => true | _ => false end.

(** The size an order has executed so far, as backtrader's [addbit] adds it
    up.  A bit counts when its size and its price are numbers.  (A size
    that is a bool counts next to a price that is a string as well: a bool
    is an int, repeats the string, and the size is added before the sum of
    the values fails.  A number [SNum] stands for a float, as the parsers
    of ccxt give, so its product with a string fails first.) *)
Fixpoint executed_size (bits : list (scalar * scalar * scalar)) : Z :=
  match bits with
  | [] => 0
  | (_, sz, pr) :: bits' =>
      match sz, pr with
      | SBool b, SStr _ => Z.b2z b + executed_size bits'
      | _, _ =>
          match numeric sz, numeric pr with
          | Ok z, Ok _ => z + executed_size bits'
          | _, _ => executed_size bits'
          end
      end
  end.

(** ** The broker *)

Section Broker.

Context {W : Type}.

(** The broker object.  [store] is the state of [self.store]; [heap] holds
    the order objects and [next_ref] is backtrader's order counter;
    [positions] keeps, per data name, the arguments of the [update] calls its
    [Position] received (size, price), oldest first. *)
Record CCXTBroker := {
  store : W;
  calls : list Call;
  heap : gmap nat CCXTOrder.t;
  next_ref : nat;
  order_types : ExecType -> option string;
  mappings : Mapping.t;
  cash : option Z;
  value : option Z;
  positions : gmap string (list (Z * pyval));
  notifs : list nat;
  open_orders : list nat
}.

Definition with_store (w : W) (c : Call) (b : CCXTBroker) : CCXTBroker :=
  {| store := w; calls := calls b ++ [c]; heap := heap b;
     next_ref := next_ref b; order_types := order_types b;
     mappings := mappings b; cash := cash b; value := value b;
     positions := positions b; notifs := notifs b;
     open_orders := open_orders b |}.

Definition with_heap (h : gmap nat CCXTOrder.t) (b : CCXTBroker) : CCXTBroker :=
  {| store := store b; calls := calls b; heap := h;
     next_ref := next_ref b; order_types := order_types b;
     mappings := mappings b; cash := cash b; value := value b;
     positions := positions b; notifs := notifs b;
     open_orders := open_orders b |}.

Definition with_next_ref (n : nat) (b : CCXTBroker) : CCXTBroker :=
  {| store := store b; calls := calls b; heap := heap b;
     next_ref := n; order_types := order_types b;
     mappings := mappings b; cash := cash b; value := value b;
     positions := positions b; notifs := notifs b;
     open_orders := open_orders b |}.

Definition with_cash (c : option Z) (b : CCXTBroker) : CCXTBroker :=
  {| store := store b; calls := calls b; heap := heap b;
     next_ref := next_ref b; order_types := order_types b;
     mappings := mappings b; cash := c; value := value b;
     positions := positions b; notifs := notifs b;
     open_orders := open_orders b |}.

Definition with_value (v : option Z) (b : CCXTBroker) : CCXTBroker :=
  {| store := store b; calls := calls b; heap := heap b;
     next_ref := next_ref b; order_types := order_types b;
     mappings := mappings b; cash := cash b; value := v;
     positions := positions b; notifs := notifs b;
     open_orders := open_orders b |}.

Definition with_positions (p : gmap string (list (Z * pyval)))
  (b : CCXTBroker) : CCXTBroker :=
  {| store := store b; calls := calls b; heap := heap b;
     next_ref := next_ref b; order_types := order_types b;
     mappings := mappings b; cash := cash b; value := value b;
     positions := p; notifs := notifs b;
     open_orders := open_orders b |}.

Definition with_notifs (q : list nat) (b : CCXTBroker) : CCXTBroker :=
  {| store := store b; calls := calls b; heap := heap b;
     next_ref := next_ref b; order_types := order_types b;
     mappings := mappings b; cash := cash b; value := value b;
     positions := positions b; notifs := q;
     open_orders := open_orders b |}.

Definition with_open_orders (l : list nat) (b : CCXTBroker) : CCXTBroker :=
  {| store := store b; calls := calls b; heap := heap b;
     next_ref := next_ref b; order_types := order_types b;
     mappings := mappings b; cash := cash b; value := value b;
     positions := positions b; notifs := notifs b;
     open_orders := l |}.

(** *** Methods as state transformers that may raise *)

Definition M (A : Type) : Type := CCXTBroker -> CCXTBroker * result A.

Definition ret {A} (a : A) : M A := fun b => (b, Ok a).

Definition raise {A} (e : exn) : M A := fun b => (b, Raise e).

Definition bind {A B} (m : M A) (k : A -> M B) : M B :=
  fun b =>
    match m b with
    | (b', Ok a) => k a b'
    | (b', Raise e) => (b', Raise e)
    end.

Definition lift {A} (r : result A) : M A := fun b => (b, r).

(** [try: m except ValueError: pass] *)
Definition except_ValueError (m : M unit) : M unit :=
  fun b =>
    match m b with
    | (b', Raise ValueError) => (b', Ok tt)
    | out => out
    end.

Definition modify (f : CCXTBroker -> CCXTBroker) : M unit :=
  fun b => (f b, Ok tt).

Definition gets {A} (f : CCXTBroker -> A) : M A :=
  fun b => (b, Ok (f b)).

End Broker.

Arguments CCXTBroker W : clear implicits.
Arguments M W A : clear implicits.

Notation "'let*' x ':=' m 'in' k" := (bind m (fun x => k))
  (at level 10, x name, m at level 100, k at level 200, only parsing).
Notation "m1 ';;;' m2" := (bind m1 (fun _ => m2))
  (at level 100, m2 at level 200, right associativity, only parsing).

Section Methods.

Context {W : Type}.
Variable st : CCXTStore.t W.

Abbreviation M := (M W).

(** *** Calls to the store *)

Definition store_get_balance : M unit :=
  fun b =>
    let (w, r) := CCXTStore.get_balance st (store b) in
    (with_store w CallGetBalance b, r).

Definition store_fetch_order (oid : pyval) (symbol : string)
  (params : gmap string pyval) : M (gmap string pyval) :=
  fun b =>
    let (w, r) := CCXTStore.fetch_order st oid symbol params (store b) in
    (with_store w (CallFetchOrder oid symbol params) b, r).

Definition store_create_order (symbol order_type side : string) (amount : Z)
  (price : option Z) (params : gmap string pyval) : M (gmap string pyval) :=
  fun b =>
    let (w, r) :=
      CCXTStore.create_order st symbol order_type side amount price params
        (store b) in
    (with_store w
       (CallCreateOrder symbol order_type side amount price params) b, r).

Definition store_cancel_order (oid : pyval) (symbol : string)
  (params : gmap string pyval) : M (gmap string pyval) :=
  fun b =>
    let (w, r) := CCXTStore.cancel_order st oid symbol params (store b) in
    (with_store w (CallCancelOrder oid symbol params) b, r).

Definition store_get_binance_positions : M (list (gmap string scalar)) :=
  fun b =>
    let (w, r) := CCXTStore.get_binance_positions st (store b) in
    (with_store w CallGetPositions b, r).

(** *** Order objects *)

Definition deref (r : nat) : M CCXTOrder.t :=
  fun b =>
    match heap b !! r with
    | Some o => (b, Ok o)
    | None => (b, Raise (Dangling r))
    end.

Definition update_order (r : nat) (f : CCXTOrder.t -> CCXTOrder.t) : M unit :=
  let* o := deref r in
  modify (fun b => with_heap (<[r := f o]> (heap b)) b).

(** [order.execute(dt, size, price, ...)], the one of backtrader's
    [OrderBase].  A false size does nothing.  Otherwise [addbit] stores the
    execution bit, takes the size off the remaining size (TypeError when the
    size is no number), multiplies size and price and adds the values
    (TypeError when the price is no number), and divides by the size
    executed so far for the new average price (ZeroDivisionError when the
    sizes cancel out). *)
Definition order_execute (r : nat) (dt amount price : scalar) : M unit :=
  if negb (truthy amount) then ret tt
  else
    update_order r
      (fun o =>
         CCXTOrder.with_executed
           (CCXTOrder.executed o ++ [(dt, amount, price)]) o) ;;;
    lift (numeric amount) ;;;
    lift (numeric price) ;;;
    let* o := deref r in
    if Z.eqb (executed_size (CCXTOrder.executed o)) 0
    then raise ZeroDivisionError
    else ret tt.

(** [order.completed()] *)
Definition order_completed (r : nat) : M unit :=
  update_order r (CCXTOrder.with_status Completed).

(** [order.cancel()] *)
Definition order_cancel (r : nat) : M unit :=
  update_order r (CCXTOrder.with_status Canceled).

(** [CCXTOrder(owner, data, ccxt_order)]: a new object with a new [ref]. *)
Definition new_order (owner : nat) (data : Data)
  (ccxt_order : gmap string pyval) : M nat :=
  let* o := lift (CCXTOrder.init owner data ccxt_order) in
  let* r := gets next_ref in
  modify (fun b => with_next_ref (S r) (with_heap (<[r := o]> (heap b)) b)) ;;;
  ret r.

(** [self.open_orders.remove(order)] *)
Definition open_orders_remove (r : nat) : M unit :=
  fun b =>
    match list_remove_first r (open_orders b) with
    | Some l => (with_open_orders l b, Ok tt)
    | None => (b, Raise ValueError)
    end.

(** [for x in l: body(x)]; an exception ends the loop. *)
Fixpoint for_each {A} (l : list A) (body : A -> M unit) : M unit :=
  match l with
  | [] => ret tt
  | x :: l' => body x ;;; for_each l' body
  end.

(** *** Balance and notifications *)

Definition get_balance : M (Z * Z) :=
  store_get_balance ;;;
  modify (fun b => with_cash (Some (CCXTStore._cash st (store b))) b) ;;;
  modify (fun b => with_value (Some (CCXTStore._value st (store b))) b) ;;;
  gets (fun b => (CCXTStore._cash st (store b), CCXTStore._value st (store b))).

Definition getcash : M Z :=
  modify (fun b => with_cash (Some (CCXTStore._cash st (store b))) b) ;;;
  gets (fun b => CCXTStore._cash st (store b)).

Definition getvalue : M Z :=
  modify (fun b => with_value (Some (CCXTStore._value st (store b))) b) ;;;
  gets (fun b => CCXTStore._value st (store b)).

Definition get_notification : M (option nat) :=
  fun b =>
    match notifs b with
    | [] => (b, Ok None)
    | r :: q => (with_notifs q b, Ok (Some r))
    end.

Definition notify (order : nat) : M unit :=
  modify (fun b => with_notifs (notifs b ++ [order]) b).

(** [self.getposition(data, clone=False).update(size, price)]: the
    position of a data name is created on first access. *)
Definition position_update (data : Data) (sz : Z) (pr : pyval) : M unit :=
  modify (fun b =>
    with_positions
      (<[_dataname data :=
           default [] (positions b !! _dataname data) ++ [(sz, pr)]]>
         (positions b)) b).

(** *** The reconciliation loop: [next] *)

(** The body of [for fill in ccxt_order['trades']]. *)
Definition apply_fill (o_order : nat) (fill : pyval) : M unit :=
  let* o := deref o_order in
  if negb (py_in fill (CCXTOrder.executed_fills o)) then
    let* dt := lift (subscript fill "datetime") in
    let* amount := lift (subscript fill "amount") in
    let* price := lift (subscript fill "price") in
    order_execute o_order dt amount price ;;;
    let* fid := lift (subscript fill "id") in
    update_order o_order
      (fun o' =>
         CCXTOrder.with_fills
           (CCXTOrder.executed_fills o' ++ [VScalar fid]) o')
  else ret tt.

Definition params_future : gmap string pyval :=
  {[ "type" := VScalar (SStr "future") ]}.

(** [snapshot[entry.key] == entry.value] *)
Definition matches (e : Mapping.entry) (snapshot : gmap string pyval)
  : result bool :=
  match getitem snapshot (Mapping.key e) with
  | Ok v => Ok (py_eqb v (Mapping.value e))
  | Raise x => Raise x
  end.

(** The body of [for o_order in list(self.open_orders)], in three parts.
    First the order is fetched and its trade list walked (lines 190-216). *)
Definition fetch_and_apply_fills (o_order : nat) : M (gmap string pyval) :=
  let* o := deref o_order in
  let* oID := lift (getitem (CCXTOrder.ccxt_order o) "id") in
  let* ccxt_order :=
    store_fetch_order oID (dataname (CCXTOrder.data o)) params_future in
  let* trades := lift (getitem ccxt_order "trades") in
  (if bool_decide (trades = VScalar SNone) then ret tt
   else
     let* fills := lift (py_iter trades) in
     for_each fills (apply_fill o_order)) ;;;
  ret ccxt_order.

(** Then the closed condition is checked (lines 221-232). *)
Definition handle_closed (o_order : nat) (ccxt_order : gmap string pyval)
  : M unit :=
  let* maps := gets mappings in
  let* closed := lift (matches (Mapping.closed_order maps) ccxt_order) in
  if closed : bool then
    let* o := deref o_order in
    position_update (CCXTOrder.data o) (CCXTOrder.size o)
      (CCXTOrder.price o) ;;;
    order_completed o_order ;;;
    notify o_order ;;;
    open_orders_remove o_order ;;;
    get_balance ;;; ret tt
  else ret tt.

(** Then, whatever the closed check did, the canceled condition
    (lines 234-241). *)
Definition handle_canceled (o_order : nat) (ccxt_order : gmap string pyval)
  : M unit :=
  let* maps := gets mappings in
  let* canceled := lift (matches (Mapping.canceled_order maps) ccxt_order) in
  if canceled : bool then
    open_orders_remove o_order ;;;
    order_cancel o_order ;;;
    notify o_order
  else ret tt.

Definition reconcile_order (o_order : nat) : M unit :=
  let* ccxt_order := fetch_and_apply_fills o_order in
  handle_closed o_order ccxt_order ;;;
  handle_canceled o_order ccxt_order.

Definition next : M unit :=
  let* l := gets open_orders in
  for_each l reconcile_order.

(** *** Submission *)

(** [params = params['params'] if 'params' in params else params] followed
    by [params['created'] = created]: the item assignment needs a
    dictionary. *)
Definition submit_params (created : Z) (params : gmap string pyval)
  : result (gmap string pyval) :=
  match params !! "params" with
  | None => Ok (<["created" := VScalar (SNum created)]> params)
  | Some (VDict d) =>
      Ok (<["created" := VScalar (SNum created)]> (VScalar <$> d))
  | Some _ => Raise TypeError
  end.

Definition _submit (owner : nat) (data : Data) (exectype : option ExecType)
  (side : string) (amount : Z) (price : option Z)
  (params : gmap string pyval) : M (option nat) :=
  if Z.eqb amount 0 || bool_decide (price = Some 0) then ret None
  else
    let* types := gets order_types in
    let order_type :=
      match exectype ≫= types with
      | Some t => t
      | None => "market"
      end in
    let created := clock_ms data in
    let* params := lift (submit_params created params) in
    let* ret_ord :=
      store_create_order (dataname data) order_type side amount price
        params in
    let* rid := lift (getitem ret_ord "id") in
    let* _order := store_fetch_order rid (dataname data) params in
    let* order := new_order owner data _order in
    let* p := lift (getitem ret_ord "price") in
    update_order order (CCXTOrder.with_price p) ;;;
    modify (fun b => with_open_orders (open_orders b ++ [order]) b) ;;;
    notify order ;;;
    ret (Some order).

Definition buy (owner : nat) (data : Data) (size : Z) (price : option Z)
  (exectype : option ExecType) (kwargs : gmap string pyval)
  : M (option nat) :=
  let kwargs := delete "transmit" (delete "parent" kwargs) in
  _submit owner data exectype "buy" size price kwargs.

Definition sell (owner : nat) (data : Data) (size : Z) (price : option Z)
  (exectype : option ExecType) (kwargs : gmap string pyval)
  : M (option nat) :=
  let kwargs := delete "transmit" (delete "parent" kwargs) in
  _submit owner data exectype "sell" size price kwargs.

(** *** Closing a position *)

(** [[{p['symbol']: p['positionAmt']} for p in open_positions]] *)
Fixpoint poses (open_positions : list (gmap string scalar))
  : result (list (scalar * scalar)) :=
  match open_positions with
  | [] => Ok []
  | p :: ps =>
      match getitem p "symbol" with
      | Raise e => Raise e
      | Ok sy =>
          match getitem p "positionAmt" with
          | Raise e => Raise e
          | Ok amt =>
              match poses ps with
              | Raise e => Raise e
              | Ok l => Ok ((sy, amt) :: l)
              end
          end
      end
  end.

(** [[p['positionAmt'] for p in open_positions if p['symbol'] == symbol]] *)
Fixpoint position_amounts (symbol : string)
  (open_positions : list (gmap string scalar)) : result (list scalar) :=
  match open_positions with
  | [] => Ok []
  | p :: ps =>
      match getitem p "symbol" with
      | Raise e => Raise e
      | Ok sy =>
          if scalar_eqb sy (SStr symbol) then
            match getitem p "positionAmt" with
            | Raise e => Raise e
            | Ok amt =>
                match position_amounts symbol ps with
                | Raise e => Raise e
                | Ok l => Ok (amt :: l)
                end
            end
          else position_amounts symbol ps
      end
  end.

(** The parameters of [buy] and [sell] that a keyword of [close] can bind
    to ([owner], [data] and [size] are given by [close] itself). *)
Definition order_parameters : list string :=
  ["price"; "plimit"; "exectype"; "valid"; "tradeid"; "oco"; "trailamount";
   "trailpercent"].

(** The keywords left for [**kwargs] of [buy] and [sell]. *)
Definition keyword_rest (kwargs : gmap string pyval) : gmap string pyval :=
  foldr delete kwargs order_parameters.

(** The keyword [price], as the price of [buy] and [sell]: a number or None.
    Prices are numbers in this model, in the store's interface too; a price
    of another kind has no counterpart, and where the code would hand it to
    the store the model stops with TypeError. *)
Definition keyword_price (kwargs : gmap string pyval) : result (option Z) :=
  match kwargs !! "price" with
  | None => Ok None
  | Some (VScalar SNone) => Ok None
  | Some (VScalar (SNum z)) => Ok (Some z)
  | Some (VScalar (SBool b)) => Ok (Some (Z.b2z b))
  | Some _ => Raise TypeError
  end.

(** backtrader's numbering of [Order.ExecTypes]. *)
Definition exectype_of_number (n : Z) : option ExecType :=
  match n with
  | 0 => Some Market
  | 1 => Some Close
  | 2 => Some Limit
  | 3 => Some Stop
  | 4 => Some StopLimit
  | 5 => Some StopTrail
  | 6 => Some StopTrailLimit
  | 7 => Some Historical
  | _ => None
  end.

(** The keyword [exectype], as a key of [order_types]: a value that is no
    execution type is looked up in vain, like None; a dictionary or a list
    cannot be looked up at all (TypeError, raised by the lookup). *)
Definition keyword_exectype (kwargs : gmap string pyval)
  : result (option ExecType) :=
  match kwargs !! "exectype" with
  | None => Ok None
  | Some (VScalar x) =>
      Ok match as_number x with
         | SNum n => exectype_of_number n
         | _ => None
         end
  | Some _ => Raise TypeError
  end.

(** [submit(owner=owner, data=data, size=size, **kwargs)] for [submit] one
    of [buy] and [sell]: the keywords bind to the parameters of their name
    ([owner], [data], [size] and [all] are parameters of [close] itself and
    never among its keywords).  The zero checks of [_submit] come before the
    look-up of the execution type and before the store sees the price. *)
Definition forward_keywords
  (submit : nat -> Data -> Z -> option Z -> option ExecType ->
            gmap string pyval -> M (option nat))
  (owner : nat) (data : Data) (size : Z) (kwargs : gmap string pyval)
  : M (option nat) :=
  match keyword_price kwargs, keyword_exectype kwargs with
  | Ok price, Ok exectype =>
      submit owner data size price exectype (keyword_rest kwargs)
  | Ok price, Raise e =>
      if Z.eqb size 0 || bool_decide (price = Some 0) then ret None
      else raise e
  | Raise e, _ => if Z.eqb size 0 then ret None else raise e
  end.

Definition close (owner : nat) (data : Data) (size : option Z) (all : bool)
  (kwargs : gmap string pyval) : M (option nat) :=
  let* open_positions := store_get_binance_positions in
  if all then
    lift (poses open_positions) ;;; ret None
  else
    let symbol := remove_char "/"%char (dataname data) in
    let* amounts := lift (position_amounts symbol open_positions) in
    match amounts with
    | [] => ret None
    | possize :: _ =>
        let* size :=
          match size with
          | Some z => ret (Z.abs z)
          | None => let* z := lift (numeric possize) in ret (Z.abs z)
          end in
        let* amt := lift (numeric possize) in
        if Z.ltb 0 amt then forward_keywords sell owner data size kwargs
        else if Z.ltb amt 0 then forward_keywords buy owner data size kwargs
        else ret None
    end.

(** *** Cancellation *)

Definition cancel (order : nat) (params : option (gmap string pyval))
  : M nat :=
  let params := default ∅ params in
  let* o := deref order in
  let* oID := lift (getitem (CCXTOrder.ccxt_order o) "id") in
  let* ccxt_order :=
    store_fetch_order oID (dataname (CCXTOrder.data o)) params in
  let* maps := gets mappings in
  let* closed := lift (matches (Mapping.closed_order maps) ccxt_order) in
  if closed : bool then ret order
  else
    let* ccxt_order :=
      store_cancel_order oID (dataname (CCXTOrder.data o)) params in
    let* canceled :=
      lift (matches (Mapping.canceled_order maps) ccxt_order) in
    (if canceled : bool then
       except_ValueError
         (open_orders_remove order ;;;
          order_cancel order ;;;
          notify order)
     else ret tt) ;;;
    ret order.

End Methods.

Arguments next {W} st.
Arguments cancel {W} st.
Arguments close {W} st.
Arguments buy {W} st.
Arguments sell {W} st.
Arguments _submit {W} st.
Arguments reconcile_order {W} st.
Arguments fetch_and_apply_fills {W} st.
Arguments handle_closed {W} st.
Arguments handle_canceled {W}.
Arguments apply_fill {W}.
Arguments forward_keywords {W}.
Arguments getcash {W} st.
Arguments getvalue {W} st.
Arguments get_balance {W} st.

(** ** Vocabulary of the properties *)

Definition terminal (s : Status) : Prop := s = Completed \/ s = Canceled.

(** The status of the order object behind a reference. *)
Definition order_status {W} (b : CCXTBroker W) (r : nat) : option Status :=
  CCXTOrder.status <$> heap b !! r.

(** From [b] to [b'] order [r] kept its place: same open orders, nothing
    queued, same status. *)
Definition stays {W} (r : nat) (b b' : CCXTBroker W) : Prop :=
  open_orders b' = open_orders b
  /\ notifs b' = notifs b
  /\ order_status b' r = order_status b r.

(** From [b] to [b'] order [r] left the open orders with status [s] and was
    queued once. *)
Definition leaves {W} (r : nat) (s : Status) (b b' : CCXTBroker W) : Prop :=
  list_remove_first r (open_orders b) = Some (open_orders b')
  /\ notifs b' = notifs b ++ [r]
  /\ order_status b' r = Some s.

(** The balance refreshes among the calls issued so far. *)
Definition balance_calls {W} (b : CCXTBroker W) : list Call :=
  List.filter is_balance_call (calls b).

(** The claim that a pass polls every open order, whatever happens to the
    others: each open order's identifier is fetched during [next]. *)
Definition every_open_order_polled {W} (st : CCXTStore.t W)
  (b : CCXTBroker W) : Prop :=
  forall r o oid,
    r ∈ open_orders b ->
    heap b !! r = Some o ->
    CCXTOrder.ccxt_order o !! "id" = Some oid ->
    exists symbol params,
      CallFetchOrder oid symbol params
      ∈ drop (length (calls b)) (calls (next st b).1).

(** The claim that a cancel request whose reply does not satisfy the
    canceled condition hands the order back: whenever [cancel] got a reply
    to its cancel call and the reply does not satisfy the condition, the
    order is returned. *)
Definition unconfirmed_cancel_returns_order {W} (st : CCXTStore.t W)
  (b : CCXTBroker W) (order : nat) (params : option (gmap string pyval))
  : Prop :=
  forall o oid w1 snap1 w2 snap2,
    heap b !! order = Some o ->
    CCXTOrder.ccxt_order o !! "id" = Some oid ->
    CCXTStore.fetch_order st oid (dataname (CCXTOrder.data o))
      (default ∅ params) (store b) = (w1, Ok snap1) ->
    matches (Mapping.closed_order (mappings b)) snap1 = Ok false ->
    CCXTStore.cancel_order st oid (dataname (CCXTOrder.data o))
      (default ∅ params) w1 = (w2, Ok snap2) ->
    matches (Mapping.canceled_order (mappings b)) snap2 <> Ok true ->
    (cancel st order params b).2 = Ok order.

(** How often order [r] occurs in a stretch of the notification queue. *)
Definition queued (r : nat) (q : list nat) : nat := count_occ Nat.eq_dec q r.

(** What became of order [r] between [b] and [b']: with [None] it is still
    open, was not queued and has its old status; with [Some s] it is no
    longer open, was queued exactly once and has status [s]. *)
Definition fate {W} (r : nat) (s : option Status) (b b' : CCXTBroker W)
  : Prop :=
  exists new,
    notifs b' = notifs b ++ new
    /\ match s with
       | None =>
           r ∈ open_orders b' /\ queued r new = 0%nat
           /\ order_status b' r = order_status b r
       | Some t =>
           (r ∉ open_orders b') /\ queued r new = 1%nat
           /\ order_status b' r = Some t
       end.

(** ** Further methods of the broker *)

(** [str.replace(a, b)] for one-character [a] and [b]. *)
Fixpoint replace_char (a b : Ascii.ascii) (s : string) : string :=
  match s with
  | EmptyString => EmptyString
  | String c s' =>
      String (if Ascii.eqb c a then b else c) (replace_char a b s')
  end.

(** The characters of ASCII, and its upper-case letters 'A'..'Z'. *)
Definition is_ascii (c : Ascii.ascii) : bool :=
  Nat.ltb (Ascii.nat_of_ascii c) 128.

Definition is_upper (c : Ascii.ascii) : bool :=
  let n := Ascii.nat_of_ascii c in Nat.leb 65 n && Nat.leb n 90.

(** [c.lower()] for a character of ASCII: 'A'..'Z' (65..90) move up by 32. *)
Definition lower_char (c : Ascii.ascii) : Ascii.ascii :=
  let n := Ascii.nat_of_ascii c in
  if Nat.leb 65 n && Nat.leb n 90 then Ascii.ascii_of_nat (n + 32) else c.

(** [str.lower()] for a string of ASCII characters.  Strings are sequences
    of bytes here; what Python's [lower] does to a character outside ASCII
    (it may even change the length) is not modelled, and what is proved of
    [lower] below is proved of ASCII strings. *)
Fixpoint lower (s : string) : string :=
  match s with
  | EmptyString => EmptyString
  | String c s' => String (lower_char c) (lower s')
  end.

(** [[o for o in ret if o["symbol"] == symbol]] *)
Fixpoint orders_of_symbol (symbol : string) (ret : list (gmap string pyval))
  : result (list (gmap string pyval)) :=
  match ret with
  | [] => Ok []
  | o :: os =>
      match getitem o "symbol" with
      | Raise e => Raise e
      | Ok sy =>
          match orders_of_symbol symbol os with
          | Raise e => Raise e
          | Ok l =>
              Ok (if py_eqb sy (VScalar (SStr symbol)) then o :: l else l)
          end
      end
  end.

(** The name [private_end_point] gives to the store for an endpoint. *)
Definition method_str (type endpoint : string) : string :=
  let endpoint_str := replace_char "/" "_" endpoint in
  let endpoint_str := remove_char "{" endpoint_str in
  let endpoint_str := remove_char "}" endpoint_str in
  String.append "private_" (String.append (lower type) (lower endpoint_str)).

Section MoreMethods.

Context {W : Type}.

(** Three more operations of the store; calls to them change the state of
    the store and are not entered in [calls]. *)
Variable store_wallet_balance :
  string -> gmap string pyval -> W -> W * result (gmap string pyval).
Variable store_fetch_open_orders :
  option string -> W -> W * result (list (gmap string pyval)).
Variable store_private_end_point :
  string -> string -> gmap string pyval -> W -> W * result pyval.

Definition with_store_state (w : W) (b : CCXTBroker W) : CCXTBroker W :=
  {| store := w; calls := calls b; heap := heap b;
     next_ref := next_ref b; order_types := order_types b;
     mappings := mappings b; cash := cash b; value := value b;
     positions := positions b; notifs := notifs b;
     open_orders := open_orders b |}.

(** [balance[part][currency] if balance[part][currency] else 0] *)
Definition wallet_figure (balance : gmap string pyval) (part currency : string)
  : result scalar :=
  match getitem balance part with
  | Raise e => Raise e
  | Ok v =>
      match subscript v currency with
      | Raise e => Raise e
      | Ok x => Ok (if truthy x then x else SNum 0)
      end
  end.

Definition get_wallet_balance (currency : string)
  (params : gmap string pyval) : M W (scalar * scalar) :=
  let* balance :=
    (fun b =>
       let (w, r) := store_wallet_balance currency params (store b) in
       (with_store_state w b, r)) in
  let* cash := lift (wallet_figure balance "free" currency) in
  let* value := lift (wallet_figure balance "total" currency) in
  ret (cash, value).

(** [safe] is not used by the method. *)
Definition get_orders_open (safe : bool) (symbol : option string)
  : M W (list (gmap string pyval)) :=
  let* ret_ :=
    (fun b =>
       let (w, r) := store_fetch_open_orders symbol (store b) in
       (with_store_state w b, r)) in
  match symbol with
  | Some s =>
      if negb (String.eqb s "") then lift (orders_of_symbol s ret_)
      else ret ret_
  | None => ret ret_
  end.

Definition private_end_point (type endpoint : string)
  (params : gmap string pyval) : M W pyval :=
  fun b =>
    let (w, r) :=
      store_private_end_point type (method_str type endpoint) params
        (store b) in
    (with_store_state w b, r).

(** [self.positions[data._dataname]], a [defaultdict]: reading an unknown
    name stores an empty position under it.  With [clone] the caller gets a
    copy; positions are values here, so the flag makes no difference. *)
Definition getposition (data : Data) (clone : bool)
  : M W (list (Z * pyval)) :=
  fun b =>
    match positions b !! _dataname data with
    | Some pos => (b, Ok pos)
    | None =>
        (with_positions (<[_dataname data := []]> (positions b)) b, Ok [])
    end.

End MoreMethods.

(** The broker is consistent when no order is open twice and every open
    order is an allocated object older than the order counter. *)
Definition consistent {W} (b : CCXTBroker W) : Prop :=
  NoDup (open_orders b)
  /\ forall r, r ∈ open_orders b ->
       (r < next_ref b)%nat /\ is_Some (heap b !! r).

(** The calls issued from [b] to [b']. *)
Definition new_calls {W} (b b' : CCXTBroker W) : list Call :=
  drop (length (calls b)) (calls b').

(** [keeps f b b']: the part [f] of the broker is the same in [b] and [b']. *)
Definition keeps {W X} (f : CCXTBroker W -> X) : relation (CCXTBroker W) :=
  fun b b' => f b' = f b.

(** What one fill dictionary holds: datetime, amount, price, identifier. *)
Definition fill_holds (d : gmap string scalar)
  (f : scalar * scalar * scalar * scalar) : Prop :=
  d !! "datetime" = Some f.1.1.1 /\ d !! "amount" = Some f.1.1.2
  /\ d !! "price" = Some f.1.2 /\ d !! "id" = Some f.2.

(** A fill that [execute] books without raising when the size executed so
    far is not negative: a positive number for the size, a number for the
    price. *)
Definition fill_executes (f : scalar * scalar * scalar * scalar) : bool :=
  match f with
  | (_, SNum a, SNum _, _) => Z.ltb 0 a
  | _ => false
  end.


(** The ledger: positions and the broker's copies of cash and value. *)
Definition ledger {W} (b : CCXTBroker W)
  : gmap string (list (Z * pyval)) * option Z * option Z :=
  (positions b, cash b, value b).

(** The calls that change something on the exchange. *)
Definition is_order_call (c : Call) : bool :=
  is_create_call c || is_cancel_call c.

Definition order_calls {W} (b : CCXTBroker W) : list Call :=
  List.filter is_order_call (calls b).

(** The fetches made so far, oldest first. *)
Definition fetch_calls {W} (b : CCXTBroker W) : list Call :=
  List.filter is_fetch_call (calls b).

(** The fetch the loop of [next] makes for the order [r]: the identifier of
    its snapshot, the name of its data feed and the parameters of line 198. *)
Definition poll_call {W} (b : CCXTBroker W) (r : nat) : option Call :=
  match heap b !! r with
  | Some o =>
      match CCXTOrder.ccxt_order o !! "id" with
      | Some oid =>
          Some (CallFetchOrder oid (dataname (CCXTOrder.data o))
                  params_future)
      | None => None
      end
  | None => None
  end.

(** [same_polls b b']: every order would be fetched the same way. *)
Definition same_polls {W} (b b' : CCXTBroker W) : Prop :=
  forall r, poll_call b' r = poll_call b r.

(** [string_all p s]: every character of [s] passes [p]. *)
Fixpoint string_all (p : Ascii.ascii -> bool) (s : string) : bool :=
  match s with
  | EmptyString => true
  | String c s' => p c && string_all p s'
  end.

(** A character an endpoint leaves in a method name: no slash, no brace, no
    upper-case letter. *)
Definition method_char (c : Ascii.ascii) : bool :=
  negb (Ascii.eqb c "/") && negb (Ascii.eqb c "{") && negb (Ascii.eqb c "}")
  && negb (is_upper c).

(** What one character of an endpoint becomes in the method name: a slash
    an underscore, a brace nothing, an upper-case letter its lower-case
    letter, any other character itself. *)
Definition endpoint_char (c : Ascii.ascii) : string :=
  if Ascii.eqb c "/" then "_"
  else if Ascii.eqb c "{" || Ascii.eqb c "}" then ""
  else if is_upper c
       then String (Ascii.ascii_of_nat (Ascii.nat_of_ascii c + 32)) ""
       else String c "".

(** The endpoint's part of the method name, character by character. *)
Fixpoint endpoint_name (endpoint : string) : string :=
  match endpoint with
  | EmptyString => EmptyString
  | String c e => String.append (endpoint_char c) (endpoint_name e)
  end.

(** An open-order entry the store reports for [symbol]. *)
Definition has_symbol (symbol : string) (o : gmap string pyval) : bool :=
  match o !! "symbol" with
  | Some v => py_eqb v (VScalar (SStr symbol))
  | None => false
  end.

(** ** Concrete brokers and stores for the examples *)

(** [CCXTBroker.__init__]: nothing tracked, nothing queued. *)
Definition new_broker {W} (w : W) (maps : Mapping.t) : CCXTBroker W :=
  {| store := w; calls := []; heap := ∅; next_ref := 0%nat;
     order_types := default_order_types; mappings := maps;
     cash := None; value := None; positions := ∅; notifs := [];
     open_orders := [] |}.

(** A store without state whose answers depend on the order identifier
    only: the exchange reports the same thing at every poll. *)
Definition fixed_store
  (fetch cancel_reply : pyval -> result (gmap string pyval))
  (created : result (gmap string pyval))
  (remote_positions : result (list (gmap string scalar)))
  : CCXTStore.t unit :=
  {| CCXTStore._cash := fun _ => 1000;
     CCXTStore._value := fun _ => 1000;
     CCXTStore.get_balance := fun w => (w, Ok tt);
     CCXTStore.fetch_order := fun oid _ _ w => (w, fetch oid);
     CCXTStore.create_order := fun _ _ _ _ _ _ w => (w, created);
     CCXTStore.cancel_order := fun oid _ _ w => (w, cancel_reply oid);
     CCXTStore.get_binance_positions := fun w => (w, remote_positions) |}.

Definition str (s : string) : pyval := VScalar (SStr s).
Definition num (z : Z) : pyval := VScalar (SNum z).

Definition btc_usd : Data :=
  {| dataname := "BTC/USD"; _dataname := "BTC/USD"; clock_ms := 1700000000000 |}.

Definition eth_usd : Data :=
  {| dataname := "ETH/USD"; _dataname := "ETH/USD"; clock_ms := 1700000000000 |}.

(** The fill "f1": one unit at 100. *)
Definition fill_f1 : gmap string scalar :=
  {[ "id" := SStr "f1"; "datetime" := SStr "2023-11-14T22:13:20Z";
     "amount" := SNum 1; "price" := SNum 100 ]}.

(** A snapshot of order "o1" with the given status and trade list. *)
Definition snapshot_o1 (status : string) (trades : pyval) : gmap string pyval :=
  {[ "id" := str "o1"; "side" := str "buy"; "amount" := num 1;
     "price" := num 100; "status" := str status; "trades" := trades ]}.

(** An order object tracking the remote order [oid]. *)
Definition tracked_order (oid : string) : CCXTOrder.t :=
  {| CCXTOrder.owner := 0%nat; CCXTOrder.data := btc_usd;
     CCXTOrder.ccxt_order := {[ "id" := str oid ]};
     CCXTOrder.executed_fills := []; CCXTOrder.ordtype := Buy;
     CCXTOrder.size := 1; CCXTOrder.price := num 100;
     CCXTOrder.status := Created; CCXTOrder.executed := [] |}.


(** The broker after it started tracking one more remote order. *)
Definition track (oid : string) (b : CCXTBroker unit) : CCXTBroker unit :=
  with_open_orders (open_orders b ++ [next_ref b])
    (with_next_ref (S (next_ref b))
       (with_heap (<[next_ref b := tracked_order oid]> (heap b)) b)).

(** One open order "o1" (reference 0), default mapping table. *)
Definition broker_o1 : CCXTBroker unit :=
  track "o1" (new_broker tt Mapping.default).

(** Two open orders "o1" and "o2" (references 0 and 1). *)
Definition broker_o1_o2 : CCXTBroker unit :=
  track "o2" (track "o1" (new_broker tt Mapping.default)).

Definition no_reply {A} : result A := Raise (ExchangeError "unused").

(** The exchange keeps reporting order "o1" open with the one fill "f1". *)
Definition exchange_open_with_f1 : CCXTStore.t unit :=
  fixed_store (fun _ => Ok (snapshot_o1 "open" (VList [fill_f1])))
    (fun _ => no_reply) no_reply no_reply.

(** The mapping table of the class docstring: closed is status = "closed",
    canceled is result = 1. *)
Definition docstring_mappings : Mapping.t :=
  {| Mapping.closed_order :=
       {| Mapping.key := "status"; Mapping.value := str "closed" |};
     Mapping.canceled_order :=
       {| Mapping.key := "result"; Mapping.value := num 1 |} |}.

(** A snapshot that satisfies both conditions of [docstring_mappings]. *)
Definition snapshot_closed_and_canceled : gmap string pyval :=
  <["result" := num 1]> (snapshot_o1 "closed" (VScalar SNone)).

Definition exchange_closed_and_canceled : CCXTStore.t unit :=
  fixed_store (fun _ => Ok snapshot_closed_and_canceled)
    (fun _ => no_reply) no_reply no_reply.

Definition broker_docstring_o1_o2 : CCXTBroker unit :=
  track "o2" (track "o1" (new_broker tt docstring_mappings)).

(** Fetching "o1" times out; every other order is reported closed. *)
Definition exchange_o1_times_out : CCXTStore.t unit :=
  fixed_store
    (fun oid =>
       if py_eqb oid (str "o1") then Raise (ExchangeError "timeout")
       else Ok (snapshot_o1 "closed" (VScalar SNone)))
    (fun _ => no_reply) no_reply no_reply.

(** "o1" is reported closed and every other order open, without trades. *)
Definition exchange_o1_closed : CCXTStore.t unit :=
  fixed_store
    (fun oid =>
       if py_eqb oid (str "o1") then Ok (snapshot_o1 "closed" (VScalar SNone))
       else Ok (snapshot_o1 "open" (VScalar SNone)))
    (fun _ => no_reply) no_reply no_reply.

(** Orders are open when fetched; a cancel request answers with the given
    status. *)
Definition exchange_cancel_answers (status : string) : CCXTStore.t unit :=
  fixed_store (fun _ => Ok (snapshot_o1 "open" (VScalar SNone)))
    (fun _ => Ok (snapshot_o1 status (VScalar SNone))) no_reply no_reply.

(** The account is short 2 ETH; order creation answers with order "o1". *)
Definition exchange_short_eth : CCXTStore.t unit :=
  fixed_store (fun _ => Ok (snapshot_o1 "open" (VScalar SNone)))
    (fun _ => no_reply)
    (Ok (snapshot_o1 "open" (VScalar SNone)))
    (Ok [ {[ "symbol" := SStr "BTCUSD"; "positionAmt" := SNum 5 ]};
          {[ "symbol" := SStr "ETHUSD"; "positionAmt" := SNum (-2) ]} ]).

(** Order "o1" as the exchange reports an open sell order of 1. *)
Definition snapshot_sell_o1 : gmap string pyval :=
  <["side" := str "sell"]> (snapshot_o1 "open" (VScalar SNone)).

(** Order creation answers with the sell order "o1", and so does a fetch. *)
Definition exchange_accepts_sell : CCXTStore.t unit :=
  fixed_store (fun _ => Ok snapshot_sell_o1) (fun _ => no_reply)
    (Ok snapshot_sell_o1) no_reply.

(** The second position entry has no symbol. *)
Definition exchange_unreadable_position : CCXTStore.t unit :=
  fixed_store (fun _ => no_reply) (fun _ => no_reply) no_reply
    (Ok [ {[ "symbol" := SStr "BTCUSD"; "positionAmt" := SNum 5 ]};
          {[ "positionAmt" := SNum (-2) ]} ]).

(** Orders are reported closed, in snapshots without a "trades" entry. *)
Definition exchange_without_trades : CCXTStore.t unit :=
  fixed_store
    (fun _ => Ok (delete "trades" (snapshot_o1 "closed" (VScalar SNone))))
    (fun _ => no_reply) no_reply no_reply.

(** A wallet with 3 USDT free out of 10, and a BTC entry that is None. *)
Definition wallet_reply (currency : string) (params : gmap string pyval)
  (w : unit) : unit * result (gmap string pyval) :=
  (w, Ok {[ "free" := VDict {[ "USDT" := SNum 3; "BTC" := SNone ]};
            "total" := VDict {[ "USDT" := SNum 10; "BTC" := SNone ]} ]}).

(** Two open orders on the exchange, one per symbol. *)
Definition open_orders_reply (symbol : option string) (w : unit)
  : unit * result (list (gmap string pyval)) :=
  (w, Ok [ {[ "id" := str "o1"; "symbol" := str "BTC/USD" ]};
           {[ "id" := str "o2"; "symbol" := str "ETH/USD" ]} ]).
(** ** Basic facts *)

Lemma list_remove_first_None (x : nat) (l : list nat) :
  list_remove_first x l = None <-> x ∉ l.
Proof.
  induction l as [|y l IH]; simpl.
  - split; [intros _; apply not_elem_of_nil | done].
  - destruct (decide (y = x)) as [->|Hne].
    + split; [done | intros H; exfalso; apply H; left].
    + rewrite fmap_None, IH, not_elem_of_cons. intuition congruence.
Qed.

Lemma list_remove_first_Some_elem (x : nat) (l l' : list nat) :
  list_remove_first x l = Some l' -> x ∈ l.
Proof.
  intros H. destruct (decide (x ∈ l)) as [|Hn]; [done|].
  apply list_remove_first_None in Hn. congruence.
Qed.

Lemma list_remove_first_other (x y : nat) (l l' : list nat) :
  list_remove_first x l = Some l' -> y <> x -> (y ∈ l' <-> y ∈ l).
Proof.
  revert l'. induction l as [|z l IH]; simpl; intros l' H Hne; [done|].
  destruct (decide (z = x)) as [->|Hz].
  - simplify_eq. rewrite elem_of_cons. intuition congruence.
  - destruct (list_remove_first x l) as [l0|] eqn:E; simpl in H; [|done].
    simplify_eq. rewrite !elem_of_cons, (IH l0); done.
Qed.

Lemma list_remove_first_NoDup (x : nat) (l l' : list nat) :
  list_remove_first x l = Some l' -> NoDup l -> NoDup l' /\ x ∉ l'.
Proof.
  revert l'. induction l as [|z l IH]; simpl; intros l' H Hnd; [done|].
  apply NoDup_cons in Hnd as [Hz Hnd].
  destruct (decide (z = x)) as [->|Hne].
  - simplify_eq. done.
  - destruct (list_remove_first x l) as [l0|] eqn:E; simpl in H; [|done].
    simplify_eq. destruct (IH l0 eq_refl Hnd) as [Hnd0 Hx].
    split.
    + apply NoDup_cons. split; [|done].
      intros Hin. apply Hz. by apply (list_remove_first_other x z l l0).
    + rewrite not_elem_of_cons. done.
Qed.

Section Properties.

Context {W : Type}.
Variable st : CCXTStore.t W.

Implicit Types b : CCXTBroker W.

(** *** Submission of a malformed request *)

(** C5: a submission whose size is zero or whose price is zero returns no
    order and leaves the whole broker as it was: no call is issued to the
    store (neither create nor fetch), nothing is appended to the open orders,
    nothing is queued, and nothing is raised.  The same holds through [buy]
    and [sell]. *)
Theorem submit_zero_size_or_price_rejected
  b owner data exectype side (amount : Z) (price : option Z) params :
  amount = 0 \/ price = Some 0 ->
  _submit st owner data exectype side amount price params b = (b, Ok None)
  /\ buy st owner data amount price exectype params b = (b, Ok None)
  /\ sell st owner data amount price exectype params b = (b, Ok None).
Proof.
  intros H.
  assert (Hguard : Z.eqb amount 0 || bool_decide (price = Some 0) = true).
  { destruct H as [->| ->]; [done|]. apply orb_true_iff. right.
    by apply bool_decide_eq_true. }
  unfold buy, sell, _submit. rewrite Hguard. done.
Qed.

(** *** Cached cash and value *)

(** [getcash] and [getvalue] read the store's cached figure into the
    broker's own copy and return it. *)
Lemma getcash_cached b :
  getcash st b
  = (with_cash (Some (CCXTStore._cash st (store b))) b,
     Ok (CCXTStore._cash st (store b))).
Proof. reflexivity. Qed.

Lemma getvalue_cached b :
  getvalue st b
  = (with_value (Some (CCXTStore._value st (store b))) b,
     Ok (CCXTStore._value st (store b))).
Proof. reflexivity. Qed.

(** *** Cancellation *)

(** C6: when the snapshot fetched by [cancel] already satisfies the closed
    condition, [cancel] returns the order, the only call issued is that
    fetch (so no cancel call), and the order objects, the open orders and
    the notification queue are as before. *)
Theorem cancel_closed_order_untouched
  b order params o oid w1 snap1 :
  heap b !! order = Some o ->
  CCXTOrder.ccxt_order o !! "id" = Some oid ->
  CCXTStore.fetch_order st oid (dataname (CCXTOrder.data o))
    (default ∅ params) (store b) = (w1, Ok snap1) ->
  matches (Mapping.closed_order (mappings b)) snap1 = Ok true ->
  let b' := (cancel st order params b).1 in
  (cancel st order params b).2 = Ok order
  /\ heap b' = heap b
  /\ open_orders b' = open_orders b
  /\ notifs b' = notifs b
  /\ calls b'
     = calls b
       ++ [CallFetchOrder oid (dataname (CCXTOrder.data o)) (default ∅ params)]
  /\ List.filter is_cancel_call (calls b')
     = List.filter is_cancel_call (calls b).
Proof.
  intros Ho Hid Hfetch Hclosed.
  unfold cancel, bind, deref, lift, gets, store_fetch_order, getitem.
  rewrite Ho, Hid. cbn beta iota. rewrite Hfetch. cbn.
  rewrite Hclosed. cbn.
  repeat split; try reflexivity.
  rewrite List.filter_app. cbn. by rewrite app_nil_r.
Qed.

(** C8: [cancel] issued the cancel call and the returned snapshot satisfies
    the canceled condition, but the order is not among the open orders: the
    failed removal is swallowed, the order is returned, and neither the order
    objects nor the queue nor the open orders change. *)
Theorem cancel_absent_order_swallowed
  b order params o oid w1 snap1 w2 snap2 :
  heap b !! order = Some o ->
  CCXTOrder.ccxt_order o !! "id" = Some oid ->
  CCXTStore.fetch_order st oid (dataname (CCXTOrder.data o))
    (default ∅ params) (store b) = (w1, Ok snap1) ->
  matches (Mapping.closed_order (mappings b)) snap1 = Ok false ->
  CCXTStore.cancel_order st oid (dataname (CCXTOrder.data o))
    (default ∅ params) w1 = (w2, Ok snap2) ->
  matches (Mapping.canceled_order (mappings b)) snap2 = Ok true ->
  order ∉ open_orders b ->
  let b' := (cancel st order params b).1 in
  (cancel st order params b).2 = Ok order
  /\ heap b' = heap b
  /\ open_orders b' = open_orders b
  /\ notifs b' = notifs b
  /\ calls b'
     = calls b
       ++ [CallFetchOrder oid (dataname (CCXTOrder.data o)) (default ∅ params);
           CallCancelOrder oid (dataname (CCXTOrder.data o)) (default ∅ params)].
Proof.
  intros Ho Hid Hfetch Hclosed Hcancel Hcanceled Habsent.
  apply list_remove_first_None in Habsent.
  unfold cancel, bind, deref, lift, gets, store_fetch_order,
    store_cancel_order, getitem.
  rewrite Ho, Hid. cbn beta iota. rewrite Hfetch. cbn.
  rewrite Hclosed. cbn. rewrite Hcancel. cbn. rewrite Hcanceled. cbn.
  unfold except_ValueError, bind, open_orders_remove. cbn.
  rewrite Habsent. cbn.
  repeat split; try reflexivity.
  by rewrite <- app_assoc.
Qed.

(** C10, amended: [cancel] issued the cancel call and the returned snapshot
    does not satisfy the canceled condition.  The open orders, every order
    object (so the order's status too) and the queue are unchanged.  The
    order is returned when the snapshot holds the field of the condition
    (with another value than the expected one); when the snapshot does not
    hold the field, the comparison raises KeyError and nothing is
    returned. *)
Theorem cancel_not_confirmed_leaves_order_tracked
  b order params o oid w1 snap1 w2 snap2 :
  heap b !! order = Some o ->
  CCXTOrder.ccxt_order o !! "id" = Some oid ->
  CCXTStore.fetch_order st oid (dataname (CCXTOrder.data o))
    (default ∅ params) (store b) = (w1, Ok snap1) ->
  matches (Mapping.closed_order (mappings b)) snap1 = Ok false ->
  CCXTStore.cancel_order st oid (dataname (CCXTOrder.data o))
    (default ∅ params) w1 = (w2, Ok snap2) ->
  matches (Mapping.canceled_order (mappings b)) snap2 <> Ok true ->
  let key := Mapping.key (Mapping.canceled_order (mappings b)) in
  let b' := (cancel st order params b).1 in
  (cancel st order params b).2
  = match snap2 !! key with
    | Some _ => Ok order
    | None => Raise (KeyError key)
    end
  /\ open_orders b' = open_orders b
  /\ heap b' = heap b
  /\ CCXTOrder.status <$> heap b' !! order = Some (CCXTOrder.status o)
  /\ notifs b' = notifs b
  /\ calls b'
     = calls b
       ++ [CallFetchOrder oid (dataname (CCXTOrder.data o)) (default ∅ params);
           CallCancelOrder oid (dataname (CCXTOrder.data o)) (default ∅ params)].
Proof.
  intros Ho Hid Hfetch Hclosed Hcancel Hcanceled key b'. subst b'.
  assert (Hrun :
    cancel st order params b
    = (with_store w2
         (CallCancelOrder oid (dataname (CCXTOrder.data o))
            (default ∅ params))
         (with_store w1
            (CallFetchOrder oid (dataname (CCXTOrder.data o))
               (default ∅ params)) b),
       match snap2 !! key with
       | Some _ => Ok order
       | None => Raise (KeyError key)
       end)).
  { unfold cancel, bind, deref, lift, gets, store_fetch_order,
      store_cancel_order.
    unfold getitem at 1.
    rewrite Ho, Hid. cbn beta iota. rewrite Hfetch. cbn.
    rewrite Hclosed. cbn. rewrite Hcancel. cbn.
    unfold matches, getitem in Hcanceled |- *. fold key in Hcanceled |- *.
    destruct (snap2 !! key) as [v|]; cbn; [|done].
    by destruct (py_eqb v _). }
  rewrite Hrun. cbn. rewrite Ho.
  repeat split; try done. by rewrite <- app_assoc.
Qed.

(** *** Closing a position *)


Lemma position_amounts_other_symbol (symbol : string)
  (ps : list (gmap string scalar)) :
  Forall (fun p => exists sy, p !! "symbol" = Some sy
                              /\ scalar_eqb sy (SStr symbol) = false) ps ->
  position_amounts symbol ps = Ok [].
Proof.
  induction 1 as [|p ps (sy & Hsy & Hne) _ IH]; [done|].
  cbn. unfold getitem. by rewrite Hsy, Hne.
Qed.


(** *** Relations kept by every step of a method *)

(** [respects R m]: whatever [m] returns or raises, the broker it leaves is
    related by [R] to the broker it started from. *)
Definition respects (R : relation (CCXTBroker W)) {A} (m : M W A) : Prop :=
  forall b, R b (m b).1.

Section Respects.

Context (R : relation (CCXTBroker W)) `{!PreOrder R}.

Lemma respects_ret {A} (a : A) : respects R (ret a).
Proof. intros b. reflexivity. Qed.

Lemma respects_raise {A} (e : exn) : respects R (@raise W A e).
Proof. intros b. reflexivity. Qed.

Lemma respects_lift {A} (r : result A) : respects R (lift r).
Proof. intros b. reflexivity. Qed.

Lemma respects_gets {A} (f : CCXTBroker W -> A) : respects R (gets f).
Proof. intros b. reflexivity. Qed.

Lemma respects_deref (r : nat) : respects R (deref r).
Proof. intros b. unfold deref. destruct (heap b !! r); reflexivity. Qed.

Lemma respects_bind {A B} (m : M W A) (k : A -> M W B) :
  respects R m -> (forall a, respects R (k a)) -> respects R (bind m k).
Proof.
  intros Hm Hk b. unfold bind. specialize (Hm b).
  destruct (m b) as [b1 [a|e]]; cbn in Hm.
  - transitivity b1; [exact Hm | apply Hk].
  - exact Hm.
Qed.

Lemma respects_for_each {A} (l : list A) (body : A -> M W unit) :
  (forall x, respects R (body x)) -> respects R (for_each l body).
Proof.
  intros Hbody. induction l as [|x l IH]; cbn.
  - apply respects_ret.
  - apply respects_bind; [apply Hbody | intros _; exact IH].
Qed.

Lemma respects_except (m : M W unit) :
  respects R m -> respects R (except_ValueError m).
Proof.
  intros Hm b. unfold except_ValueError. specialize (Hm b).
  destruct (m b) as [b1 [[]|[]]]; exact Hm.
Qed.

End Respects.

(** Breaks a method into its steps. *)
Ltac respects_step :=
  lazymatch goal with
  | |- respects ?R (bind _ _) =>
      refine (respects_bind R _ _ _ _); [| intros ?; cbv beta]
  | |- respects ?R (ret _) => exact (respects_ret R _)
  | |- respects ?R (raise _) => exact (respects_raise R _)
  | |- respects ?R (lift _) => exact (respects_lift R _)
  | |- respects ?R (gets _) => exact (respects_gets R _)
  | |- respects ?R (deref _) => exact (respects_deref R _)
  | |- respects ?R (for_each _ _) =>
      refine (respects_for_each R _ _ _); intros ?; cbv beta
  | |- respects ?R (except_ValueError _) => refine (respects_except R _ _)
  | |- respects _ (if ?c then _ else _) => destruct c
  | |- respects _ (match ?x with _ => _ end) => destruct x
  end.

Ltac respects_steps := repeat respects_step.

(** [touched_only S b b']: from [b] to [b'] only orders in [S] were written
    to, removed from the open orders or notified; the mapping table is the
    same. *)
Record touched_only (S : nat -> Prop) (b b' : CCXTBroker W) : Prop := {
  to_heap : forall r, ~ S r -> heap b' !! r = heap b !! r;
  to_alloc : forall r, is_Some (heap b !! r) -> is_Some (heap b' !! r);
  to_open : forall r, ~ S r -> r ∈ open_orders b' <-> r ∈ open_orders b;
  to_nodup : NoDup (open_orders b) -> NoDup (open_orders b');
  to_notifs : exists new, notifs b' = notifs b ++ new /\ Forall S new;
  to_mappings : mappings b' = mappings b
}.

#[local] Instance touched_only_preorder (S : nat -> Prop) :
  PreOrder (touched_only S).
Proof.
  split.
  - intros b. split; try done. exists []. by rewrite app_nil_r.
  - intros b1 b2 b3 H12 H23. split.
    + intros r Hr. rewrite (to_heap _ _ _ H23 r Hr). by apply (to_heap _ _ _ H12).
    + intros r Hr. apply (to_alloc _ _ _ H23), (to_alloc _ _ _ H12), Hr.
    + intros r Hr. rewrite (to_open _ _ _ H23 r Hr). by apply (to_open _ _ _ H12).
    + intros Hnd. apply (to_nodup _ _ _ H23), (to_nodup _ _ _ H12), Hnd.
    + destruct (to_notifs _ _ _ H12) as (n1 & E1 & F1).
      destruct (to_notifs _ _ _ H23) as (n2 & E2 & F2).
      exists (n1 ++ n2). split.
      * by rewrite E2, E1, <- app_assoc.
      * by apply Forall_app.
    + rewrite (to_mappings _ _ _ H23). apply (to_mappings _ _ _ H12).
Qed.

Lemma touched_only_mono (S S' : nat -> Prop) b b' :
  (forall r, S r -> S' r) -> touched_only S b b' -> touched_only S' b b'.
Proof.
  intros Hsub H. split.
  - intros r Hr. apply (to_heap _ _ _ H). intros Hs. apply Hr, Hsub, Hs.
  - apply (to_alloc _ _ _ H).
  - intros r Hr. apply (to_open _ _ _ H). intros Hs. apply Hr, Hsub, Hs.
  - apply (to_nodup _ _ _ H).
  - destruct (to_notifs _ _ _ H) as (new & E & F). exists new. split; [done|].
    eapply Forall_impl; [exact F | exact Hsub].
  - apply (to_mappings _ _ _ H).
Qed.

Lemma touched_only_same (S : nat -> Prop) b b' :
  heap b' = heap b -> open_orders b' = open_orders b ->
  notifs b' = notifs b -> mappings b' = mappings b ->
  touched_only S b b'.
Proof.
  intros Hh Ho Hn Hm. split; rewrite ?Hh, ?Ho, ?Hn, ?Hm; try done.
  exists []. by rewrite app_nil_r.
Qed.

Section TouchedSteps.

Variable S : nat -> Prop.

Lemma touched_fetch oid symbol params :
  respects (touched_only S) (store_fetch_order st oid symbol params).
Proof.
  intros b. unfold store_fetch_order.
  destruct (CCXTStore.fetch_order st _ _ _ _). by apply touched_only_same.
Qed.

Lemma touched_store_balance :
  respects (touched_only S) (store_get_balance st).
Proof.
  intros b. unfold store_get_balance.
  destruct (CCXTStore.get_balance st _). by apply touched_only_same.
Qed.

Lemma touched_get_balance : respects (touched_only S) (get_balance st).
Proof.
  unfold get_balance. respects_steps.
  - apply touched_store_balance.
  - intros b. by apply touched_only_same.
  - intros b. by apply touched_only_same.
Qed.

Lemma touched_position_update data sz pr :
  respects (touched_only S) (position_update data sz pr).
Proof. intros b. by apply touched_only_same. Qed.

Lemma touched_update_order r f :
  S r -> respects (touched_only S) (update_order r f).
Proof.
  intros HS b. unfold update_order, bind, deref, modify.
  destruct (heap b !! r) as [o|] eqn:E; cbn; [|reflexivity].
  split; cbn; try done.
  - intros r' Hr'. apply lookup_insert_ne. intros ->. done.
  - intros r' Hr'. destruct (decide (r = r')) as [->|Hne].
    + rewrite lookup_insert_eq. by eexists.
    + by rewrite lookup_insert_ne.
  - exists []. by rewrite app_nil_r.
Qed.

Lemma touched_notify r : S r -> respects (touched_only S) (notify r).
Proof.
  intros HS b. split; cbn; try done.
  exists [r]. split; [done|]. by apply Forall_singleton.
Qed.

Lemma touched_remove r :
  S r -> respects (touched_only S) (open_orders_remove r).
Proof.
  intros HS b. unfold open_orders_remove.
  destruct (list_remove_first r (open_orders b)) as [l|] eqn:E; cbn;
    [|reflexivity].
  split; cbn; try done.
  - intros r' Hr'. apply (list_remove_first_other r r' _ _ E).
    intros ->. done.
  - intros Hnd. by destruct (list_remove_first_NoDup r _ _ E Hnd).
  - exists []. by rewrite app_nil_r.
Qed.

Lemma touched_apply_fill r fill :
  S r -> respects (touched_only S) (apply_fill r fill).
Proof.
  intros HS. unfold apply_fill, order_execute. respects_steps;
    by apply touched_update_order.
Qed.

Lemma touched_fetch_and_apply_fills r :
  S r -> respects (touched_only S) (fetch_and_apply_fills st r).
Proof.
  intros HS. unfold fetch_and_apply_fills. respects_steps.
  - apply touched_fetch.
  - by apply touched_apply_fill.
Qed.

Lemma touched_handle_closed r snap :
  S r -> respects (touched_only S) (handle_closed st r snap).
Proof.
  intros HS. unfold handle_closed, order_completed. respects_steps.
  - apply touched_position_update.
  - by apply touched_update_order.
  - by apply touched_notify.
  - by apply touched_remove.
  - apply touched_get_balance.
Qed.

Lemma touched_handle_canceled r snap :
  S r -> respects (touched_only S) (handle_canceled r snap).
Proof.
  intros HS. unfold handle_canceled, order_cancel. respects_steps.
  - by apply touched_remove.
  - by apply touched_update_order.
  - by apply touched_notify.
Qed.

Lemma touched_reconcile_order r :
  S r -> respects (touched_only S) (reconcile_order st r).
Proof.
  intros HS. unfold reconcile_order. respects_steps.
  - by apply touched_fetch_and_apply_fills.
  - by apply touched_handle_closed.
  - by apply touched_handle_canceled.
Qed.

End TouchedSteps.

(** A run of the loop over [l] touches the orders of [l] only. *)
Lemma touched_for_each (l : list nat) :
  respects (touched_only (fun r => r ∈ l)) (for_each l (reconcile_order st)).
Proof.
  induction l as [|x l IH]; cbn [for_each].
  - respects_steps.
  - refine (respects_bind _ _ _ _ _).
    + apply touched_reconcile_order. left.
    + intros _ b. eapply touched_only_mono; [|apply IH].
      intros r Hr. by right.
Qed.

(** *** One order through the closed and canceled checks *)

Lemma handle_closed_matching_eq b r o snap l' :
  heap b !! r = Some o ->
  list_remove_first r (open_orders b) = Some l' ->
  matches (Mapping.closed_order (mappings b)) snap = Ok true ->
  handle_closed st r snap b
  = bind (get_balance st) (fun _ => ret tt)
      (with_open_orders l'
         (with_notifs (notifs b ++ [r])
            (with_heap (<[r := CCXTOrder.with_status Completed o]> (heap b))
               (with_positions
                  (<[_dataname (CCXTOrder.data o) :=
                       default [] (positions b !! _dataname (CCXTOrder.data o))
                       ++ [(CCXTOrder.size o, CCXTOrder.price o)]]>
                     (positions b)) b)))).
Proof.
  intros Ho Hrem Hclosed.
  unfold handle_closed. unfold bind at 1, gets. cbn [fst snd].
  unfold bind at 1, lift. rewrite Hclosed.
  unfold bind at 1, deref. rewrite Ho.
  unfold bind at 1, position_update, modify.
  unfold bind at 1, order_completed, update_order.
  unfold bind at 1, deref. cbn [heap with_positions]. rewrite Ho.
  unfold modify. cbn [heap with_positions].
  unfold bind at 1, notify, modify.
  unfold bind at 1, open_orders_remove.
  cbn [open_orders with_notifs with_heap with_positions]. rewrite Hrem.
  cbn [notifs with_notifs with_heap with_positions].
  reflexivity.
Qed.

Lemma handle_closed_matching b r o snap l' :
  heap b !! r = Some o ->
  list_remove_first r (open_orders b) = Some l' ->
  matches (Mapping.closed_order (mappings b)) snap = Ok true ->
  let out := handle_closed st r snap b in
  open_orders out.1 = l'
  /\ notifs out.1 = notifs b ++ [r]
  /\ heap out.1 = <[r := CCXTOrder.with_status Completed o]> (heap b)
  /\ mappings out.1 = mappings b
  /\ balance_calls out.1 = balance_calls b ++ [CallGetBalance]
  /\ positions out.1
     = <[_dataname (CCXTOrder.data o) :=
           default [] (positions b !! _dataname (CCXTOrder.data o))
           ++ [(CCXTOrder.size o, CCXTOrder.price o)]]> (positions b).
Proof.
  intros Ho Hrem Hclosed out. subst out.
  rewrite (handle_closed_matching_eq b r o snap l' Ho Hrem Hclosed).
  unfold get_balance, bind, store_get_balance, modify, gets, ret,
    balance_calls.
  cbn [store with_open_orders with_notifs with_heap with_positions].
  destruct (CCXTStore.get_balance st (store b)) as [w [[]|e]];
    cbn; rewrite List.filter_app; done.
Qed.

Lemma handle_canceled_matching b r o snap l' :
  heap b !! r = Some o ->
  list_remove_first r (open_orders b) = Some l' ->
  matches (Mapping.canceled_order (mappings b)) snap = Ok true ->
  handle_canceled r snap b
  = (with_notifs (notifs b ++ [r])
       (with_heap (<[r := CCXTOrder.with_status Canceled o]> (heap b))
          (with_open_orders l' b)), Ok tt).
Proof.
  intros Ho Hrem Hcanceled.
  unfold handle_canceled, bind, gets, lift. rewrite Hcanceled.
  unfold open_orders_remove. rewrite Hrem.
  unfold order_cancel, update_order, bind, deref, modify.
  cbn [heap with_open_orders]. rewrite Ho. reflexivity.
Qed.

Lemma handle_canceled_absent b r snap :
  r ∉ open_orders b ->
  matches (Mapping.canceled_order (mappings b)) snap = Ok true ->
  handle_canceled r snap b = (b, Raise ValueError).
Proof.
  intros Habs Hcanceled. apply list_remove_first_None in Habs.
  unfold handle_canceled, bind, gets, lift. rewrite Hcanceled.
  unfold open_orders_remove. by rewrite Habs.
Qed.

Lemma handle_canceled_not_matching b r snap :
  matches (Mapping.canceled_order (mappings b)) snap <> Ok true ->
  (handle_canceled r snap b).1 = b.
Proof.
  intros Hn. unfold handle_canceled, bind, gets, lift.
  destruct (matches _ snap) as [[]|e]; done.
Qed.

Lemma handle_closed_not_matching b r snap :
  matches (Mapping.closed_order (mappings b)) snap <> Ok true ->
  (handle_closed st r snap b).1 = b.
Proof.
  intros Hn. unfold handle_closed, bind, gets, lift.
  destruct (matches _ snap) as [[]|e]; done.
Qed.

Lemma list_remove_first_elem (x : nat) (l : list nat) :
  x ∈ l -> exists l', list_remove_first x l = Some l'.
Proof.
  intros Hin. destruct (list_remove_first x l) as [l'|] eqn:E; [by eexists|].
  apply list_remove_first_None in E. done.
Qed.

(** The two checks on an order that is open (once) and allocated, by what
    the conditions evaluate to on the fetched snapshot. *)
Lemma checks_cases b r o snap :
  heap b !! r = Some o ->
  NoDup (open_orders b) ->
  r ∈ open_orders b ->
  let out := bind (handle_closed st r snap)
               (fun _ => handle_canceled r snap) b in
  match matches (Mapping.closed_order (mappings b)) snap with
  | Ok true => leaves r Completed b out.1
  | Ok false =>
      match matches (Mapping.canceled_order (mappings b)) snap with
      | Ok true => leaves r Canceled b out.1 /\ out.2 = Ok tt
      | Ok false => out = (b, Ok tt)
      | Raise e => out = (b, Raise e)
      end
  | Raise e => out = (b, Raise e)
  end.
Proof.
  intros Ho Hnd Hin out.
  destruct (list_remove_first_elem r _ Hin) as [l' Hrem].
  destruct (list_remove_first_NoDup r _ _ Hrem Hnd) as [Hnd' Hnin].
  destruct (matches (Mapping.closed_order (mappings b)) snap)
    as [[]|e] eqn:Hclosed.
  - (* closed *)
    destruct (handle_closed_matching b r o snap l' Ho Hrem Hclosed)
      as (Hopen & Hnot & Hheap & Hmaps & _).
    subst out. unfold bind.
    destruct (handle_closed st r snap b) as [bX [[]|e]]; cbn [fst snd] in *.
    + assert (Hfin : (handle_canceled r snap bX).1 = bX).
      { destruct (matches (Mapping.canceled_order (mappings bX)) snap)
          as [[]|e] eqn:Hc.
        - rewrite handle_canceled_absent; [done| |done].
          by rewrite Hopen.
        - apply handle_canceled_not_matching. by rewrite Hc.
        - apply handle_canceled_not_matching. by rewrite Hc. }
      rewrite Hfin. unfold leaves, order_status.
      rewrite Hopen, Hnot, Hheap, lookup_insert_eq. done.
    + unfold leaves, order_status.
      rewrite Hopen, Hnot, Hheap, lookup_insert_eq. done.
  - (* not closed *)
    subst out. unfold bind.
    assert (Hc1 : handle_closed st r snap b = (b, Ok tt)).
    { unfold handle_closed, bind, gets, lift. by rewrite Hclosed. }
    rewrite Hc1.
    destruct (matches (Mapping.canceled_order (mappings b)) snap)
      as [[]|e] eqn:Hcanceled.
    + rewrite (handle_canceled_matching b r o snap l' Ho Hrem Hcanceled).
      cbn. unfold leaves, order_status. cbn.
      rewrite lookup_insert_eq. done.
    + unfold handle_canceled, bind, gets, lift. by rewrite Hcanceled.
    + unfold handle_canceled, bind, gets, lift. by rewrite Hcanceled.
  - subst out. unfold bind, handle_closed, bind, gets, lift.
    by rewrite Hclosed.
Qed.

(** *** Fetching and applying fills leaves the tracking alone *)

(** [same_tracking b b']: the open orders, the queue, the mapping table and
    every order's status are the same, and no order object disappeared. *)
Record same_tracking (b b' : CCXTBroker W) : Prop := {
  st_open : open_orders b' = open_orders b;
  st_notifs : notifs b' = notifs b;
  st_mappings : mappings b' = mappings b;
  st_status : forall r, order_status b' r = order_status b r
}.

#[local] Instance same_tracking_preorder : PreOrder same_tracking.
Proof.
  split.
  - intros b. by split.
  - intros b1 b2 b3 [O1 N1 M1 S1] [O2 N2 M2 S2]. split.
    + by rewrite O2.
    + by rewrite N2.
    + by rewrite M2.
    + intros r. by rewrite S2.
Qed.

Lemma tracking_fetch oid symbol params :
  respects same_tracking (store_fetch_order st oid symbol params).
Proof.
  intros b. unfold store_fetch_order.
  destruct (CCXTStore.fetch_order st _ _ _ _). by split.
Qed.

Lemma tracking_update_order r f :
  (forall o, CCXTOrder.status (f o) = CCXTOrder.status o) ->
  respects same_tracking (update_order r f).
Proof.
  intros Hf b. unfold update_order, bind, deref, modify.
  destruct (heap b !! r) as [o|] eqn:E; cbn; [|reflexivity].
  split; cbn; try done.
  intros r'. unfold order_status. cbn.
  destruct (decide (r = r')) as [<-|Hne].
  - by rewrite lookup_insert_eq, E; cbn; rewrite Hf.
  - by rewrite lookup_insert_ne.
Qed.

Lemma tracking_apply_fill r fill : respects same_tracking (apply_fill r fill).
Proof.
  unfold apply_fill, order_execute. respects_steps;
    by apply tracking_update_order.
Qed.

Lemma tracking_fetch_and_apply_fills r :
  respects same_tracking (fetch_and_apply_fills st r).
Proof.
  unfold fetch_and_apply_fills. respects_steps.
  - apply tracking_fetch.
  - apply tracking_apply_fill.
Qed.

(** *** One order through the whole loop body *)

Lemma same_tracking_stays r b b' : same_tracking b b' -> stays r b b'.
Proof. intros [O N M S]. by split. Qed.

Lemma reconcile_order_by_snapshot b r o b2 snap :
  heap b !! r = Some o ->
  NoDup (open_orders b) ->
  r ∈ open_orders b ->
  fetch_and_apply_fills st r b = (b2, Ok snap) ->
  let out := reconcile_order st r b in
  match matches (Mapping.closed_order (mappings b)) snap with
  | Ok true => leaves r Completed b out.1
  | Ok false =>
      match matches (Mapping.canceled_order (mappings b)) snap with
      | Ok true => leaves r Canceled b out.1 /\ out.2 = Ok tt
      | Ok false => stays r b out.1 /\ out.2 = Ok tt
      | Raise e => stays r b out.1 /\ out.2 = Raise e
      end
  | Raise e => stays r b out.1 /\ out.2 = Raise e
  end.
Proof.
  intros Ho Hnd Hin Hfetch out.
  pose proof (tracking_fetch_and_apply_fills r b) as Htr.
  rewrite Hfetch in Htr. cbn [fst] in Htr.
  destruct Htr as [Hopen Hnot Hmaps Hstat].
  assert (exists o2, heap b2 !! r = Some o2) as [o2 Ho2].
  { specialize (Hstat r). unfold order_status in Hstat. rewrite Ho in Hstat.
    destruct (heap b2 !! r) as [o2|]; [by eexists | done]. }
  assert (Hout : out = bind (handle_closed st r snap)
                         (fun _ => handle_canceled r snap) b2).
  { subst out. unfold reconcile_order. unfold bind at 1. by rewrite Hfetch. }
  pose proof (checks_cases b2 r o2 snap Ho2) as Hcases.
  rewrite Hopen, Hmaps in Hcases. specialize (Hcases Hnd Hin).
  cbv zeta in Hcases. rewrite <- Hout in Hcases.
  assert (Hst : stays r b b2) by (by split).
  assert (Hlv : forall t b', leaves r t b2 b' -> leaves r t b b').
  { intros t b' (H1 & H2 & H3). unfold leaves.
    by rewrite <- Hopen, <- Hnot. }
  destruct (matches (Mapping.closed_order (mappings b)) snap) as [[]|e].
  - by apply Hlv.
  - destruct (matches (Mapping.canceled_order (mappings b)) snap) as [[]|e].
    + destruct Hcases as [Hl Hres]. split; [by apply Hlv | done].
    + by rewrite Hcases.
    + by rewrite Hcases.
  - by rewrite Hcases.
Qed.

(** Whatever the store answers, an order that is open (once) either keeps
    its place or leaves the open orders completed or canceled, queued once. *)
Lemma reconcile_order_cases b r o :
  heap b !! r = Some o ->
  NoDup (open_orders b) ->
  r ∈ open_orders b ->
  let b' := (reconcile_order st r b).1 in
  stays r b b' \/ leaves r Completed b b' \/ leaves r Canceled b b'.
Proof.
  intros Ho Hnd Hin b'.
  destruct (fetch_and_apply_fills st r b) as [b2 [snap|e]] eqn:Hfetch.
  - pose proof (reconcile_order_by_snapshot b r o b2 snap Ho Hnd Hin Hfetch)
      as H. cbv zeta in H. fold b' in H.
    destruct (matches (Mapping.closed_order (mappings b)) snap) as [[]|e];
      [by right; left| |by left; destruct H].
    destruct (matches (Mapping.canceled_order (mappings b)) snap) as [[]|e];
      [by right; right; destruct H | by left; destruct H
      | by left; destruct H].
  - left. subst b'. unfold reconcile_order, bind. rewrite Hfetch. cbn [fst].
    apply same_tracking_stays.
    pose proof (tracking_fetch_and_apply_fills r b) as Htr.
    by rewrite Hfetch in Htr.
Qed.

(** *** A whole pass *)

Lemma next_unfold b :
  next st b = for_each (open_orders b) (reconcile_order st) b.
Proof. reflexivity. Qed.

Lemma for_each_app {A} (l1 l2 : list A) (body : A -> M W unit) b :
  for_each (l1 ++ l2) body b
  = bind (for_each l1 body) (fun _ => for_each l2 body) b.
Proof.
  revert b. induction l1 as [|x l1 IH]; intros b; cbn [app for_each];
    [done|].
  unfold bind in *. destruct (body x b) as [b1 [[]|e]]; [|done].
  apply IH.
Qed.

(** [kept r b b']: between [b] and [b'] nothing happened to order [r]. *)
Record kept (r : nat) (b b' : CCXTBroker W) : Prop := {
  k_heap : heap b' !! r = heap b !! r;
  k_open : r ∈ open_orders b' <-> r ∈ open_orders b;
  k_nodup : NoDup (open_orders b) -> NoDup (open_orders b');
  k_notifs : exists new, notifs b' = notifs b ++ new /\ queued r new = 0%nat;
  k_mappings : mappings b' = mappings b
}.

Lemma queued_not_elem r (q : list nat) : r ∉ q -> queued r q = 0%nat.
Proof.
  intros H. apply count_occ_not_In. by rewrite <- list_elem_of_In.
Qed.

Lemma queued_app r (q1 q2 : list nat) :
  queued r (q1 ++ q2) = (queued r q1 + queued r q2)%nat.
Proof. apply count_occ_app. Qed.

Lemma queued_singleton r : queued r [r] = 1%nat.
Proof. unfold queued. cbn. by destruct (Nat.eq_dec r r). Qed.

Lemma touched_kept (S : nat -> Prop) r b b' :
  touched_only S b b' -> ~ S r -> kept r b b'.
Proof.
  intros [Hh _ Ho Hnd (new & En & Fn) Hm] Hr. split; auto.
  exists new. split; [done|]. apply queued_not_elem.
  intros Hin. apply Hr. by apply (proj1 (Forall_forall _ _) Fn).
Qed.

Lemma kept_refl r b : kept r b b.
Proof. split; try done. exists []. by rewrite app_nil_r. Qed.

Lemma kept_fate_None r b b' :
  kept r b b' -> r ∈ open_orders b -> fate r None b b'.
Proof.
  intros [Hh Ho _ (new & En & Qn) _] Hin. exists new. split; [done|].
  split; [by apply Ho|]. split; [done|]. unfold order_status. by rewrite Hh.
Qed.

Lemma fate_kept_after r s b b1 b' :
  fate r s b b1 -> kept r b1 b' -> fate r s b b'.
Proof.
  intros (n1 & E1 & H1) [Hh Ho _ (n2 & E2 & Q2) _].
  exists (n1 ++ n2). split; [by rewrite E2, E1, <- app_assoc|].
  rewrite queued_app, Q2, Nat.add_0_r. unfold order_status in *.
  rewrite Hh. destruct s; rewrite Ho; done.
Qed.

Lemma kept_fate_before r s b b1 b' :
  kept r b b1 -> fate r s b1 b' -> fate r s b b'.
Proof.
  intros [Hh Ho _ (n1 & E1 & Q1) _] (n2 & E2 & H2).
  exists (n1 ++ n2). split; [by rewrite E2, E1, <- app_assoc|].
  rewrite queued_app, Q1, Nat.add_0_l. unfold order_status in *.
  rewrite <- Hh. done.
Qed.

Lemma stays_fate r b b' : stays r b b' -> r ∈ open_orders b -> fate r None b b'.
Proof.
  intros (Ho & Hn & Hs) Hin. exists []. rewrite app_nil_r.
  split; [done|]. by rewrite Ho.
Qed.

Lemma leaves_fate r t b b' :
  leaves r t b b' -> NoDup (open_orders b) -> fate r (Some t) b b'.
Proof.
  intros (Hrem & Hn & Hs) Hnd. exists [r]. split; [done|].
  destruct (list_remove_first_NoDup r _ _ Hrem Hnd) as [_ Hnin].
  split; [done|]. split; [apply queued_singleton | done].
Qed.

Lemma pass_split b l1 r l2 :
  open_orders b = l1 ++ r :: l2 ->
  next st b
  = bind (for_each l1 (reconcile_order st))
      (fun _ => bind (reconcile_order st r)
                  (fun _ => for_each l2 (reconcile_order st))) b.
Proof. intros H. rewrite next_unfold, H. exact (for_each_app _ _ _ _). Qed.

Lemma NoDup_split_middle (l1 l2 : list nat) r :
  NoDup (l1 ++ r :: l2) -> (r ∉ l1) /\ (r ∉ l2).
Proof.
  intros H. apply NoDup_app in H as (_ & H1 & H2).
  apply NoDup_cons in H2 as [H2 _]. split; [|done].
  intros Hin. apply (H1 r Hin). left.
Qed.

Lemma kept_for_each r l b :
  r ∉ l -> kept r b (for_each l (reconcile_order st) b).1.
Proof.
  intros Hnin. eapply touched_kept; [apply touched_for_each | done].
Qed.

(** The pass stopped before reaching [r]. *)
Lemma pass_fate_prefix_raised b l1 r l2 b1 e :
  NoDup (open_orders b) ->
  open_orders b = l1 ++ r :: l2 ->
  for_each l1 (reconcile_order st) b = (b1, Raise e) ->
  fate r None b (next st b).1.
Proof.
  intros Hnd Hsplit Hpre.
  rewrite (pass_split b l1 r l2 Hsplit). unfold bind at 1. rewrite Hpre.
  cbn [fst].
  rewrite Hsplit in Hnd. destruct (NoDup_split_middle _ _ _ Hnd) as [Hl1 _].
  pose proof (kept_for_each r l1 b Hl1) as Hk. rewrite Hpre in Hk.
  apply kept_fate_None; [done|]. rewrite Hsplit, elem_of_app. right. left.
Qed.

(** The pass reached [r]: what the body did to [r] is what the pass did. *)
Lemma pass_fate_reached b l1 r l2 b1 s :
  NoDup (open_orders b) ->
  open_orders b = l1 ++ r :: l2 ->
  for_each l1 (reconcile_order st) b = (b1, Ok tt) ->
  fate r s b1 (reconcile_order st r b1).1 ->
  fate r s b (next st b).1.
Proof.
  intros Hnd Hsplit Hpre Hstep.
  rewrite (pass_split b l1 r l2 Hsplit). unfold bind at 1. rewrite Hpre.
  rewrite Hsplit in Hnd.
  destruct (NoDup_split_middle _ _ _ Hnd) as [Hl1 Hl2].
  pose proof (kept_for_each r l1 b Hl1) as Hk. rewrite Hpre in Hk.
  cbn [fst] in Hk. apply (kept_fate_before r s b b1); [done|].
  unfold bind. destruct (reconcile_order st r b1) as [b3 [[]|e]];
    cbn [fst] in *; [|done].
  eapply fate_kept_after; [exact Hstep|]. by apply kept_for_each.
Qed.

Lemma prefix_keeps_order b l1 r l2 o b1 res :
  NoDup (open_orders b) ->
  open_orders b = l1 ++ r :: l2 ->
  heap b !! r = Some o ->
  for_each l1 (reconcile_order st) b = (b1, res) ->
  heap b1 !! r = Some o /\ NoDup (open_orders b1) /\ r ∈ open_orders b1
  /\ mappings b1 = mappings b.
Proof.
  intros Hnd Hsplit Ho Hpre.
  pose proof Hnd as Hnd'. rewrite Hsplit in Hnd'.
  destruct (NoDup_split_middle _ _ _ Hnd') as [Hl1 _].
  pose proof (kept_for_each r l1 b Hl1) as Hk. rewrite Hpre in Hk.
  cbn [fst] in Hk. destruct Hk as [Hh Hop Hn _ Hm].
  split; [by rewrite Hh|]. split; [by apply Hn|]. split; [|done].
  apply Hop. rewrite Hsplit, elem_of_app. right. left.
Qed.

(** Every open order has a fate in the pass, however the pass ends. *)
Lemma pass_fate_always b l1 r l2 o :
  NoDup (open_orders b) ->
  open_orders b = l1 ++ r :: l2 ->
  heap b !! r = Some o ->
  exists s, fate r s b (next st b).1
            /\ (s = None \/ s = Some Completed \/ s = Some Canceled).
Proof.
  intros Hnd Hsplit Ho.
  destruct (for_each l1 (reconcile_order st) b) as [b1 [[]|e]] eqn:Hpre.
  - destruct (prefix_keeps_order b l1 r l2 o b1 _ Hnd Hsplit Ho Hpre)
      as (Ho1 & Hnd1 & Hin1 & _).
    destruct (reconcile_order_cases b1 r o Ho1 Hnd1 Hin1) as [H|[H|H]].
    + exists None. split; [|by left].
      apply (pass_fate_reached b l1 r l2 b1); try done. by apply stays_fate.
    + exists (Some Completed). split; [|by right; left].
      apply (pass_fate_reached b l1 r l2 b1); try done. by apply leaves_fate.
    + exists (Some Canceled). split; [|by right; right].
      apply (pass_fate_reached b l1 r l2 b1); try done. by apply leaves_fate.
  - exists None. split; [|by left].
    by apply (pass_fate_prefix_raised b l1 r l2 b1 e).
Qed.

(** C4: in a pass over open orders without duplicates, an order that
    reaches a terminal state (its status was not terminal and is terminal
    after the pass) was queued exactly once during the pass and is no longer
    open, whether the pass ended normally or not.  When the pass reaches the
    order and the conditions evaluate on its snapshot, a closed snapshot
    completes it, a canceled one cancels it (queued once, removed), and a
    snapshot matching neither leaves it open, not queued, with its status. *)
Theorem terminal_order_notified_once_and_removed b l1 r l2 o :
  NoDup (open_orders b) ->
  open_orders b = l1 ++ r :: l2 ->
  heap b !! r = Some o ->
  let b' := (next st b).1 in
  (forall t,
      ~ terminal (CCXTOrder.status o) ->
      order_status b' r = Some t ->
      terminal t ->
      fate r (Some t) b b')
  /\ (forall b1 b2 snap c1 c2,
         for_each l1 (reconcile_order st) b = (b1, Ok tt) ->
         fetch_and_apply_fills st r b1 = (b2, Ok snap) ->
         matches (Mapping.closed_order (mappings b)) snap = Ok c1 ->
         matches (Mapping.canceled_order (mappings b)) snap = Ok c2 ->
         fate r (if c1 then Some Completed
                 else if c2 then Some Canceled else None) b b').
Proof.
  intros Hnd Hsplit Ho b'. split.
  - intros t Hnt Hst Ht.
    destruct (pass_fate_always b l1 r l2 o Hnd Hsplit Ho)
      as (s & Hfate & Hs). fold b' in Hfate.
    destruct Hs as [-> | [-> | ->]].
    + destruct Hfate as (new & _ & _ & _ & Hsame).
      rewrite Hst in Hsame. unfold order_status in Hsame.
      rewrite Ho in Hsame. cbn in Hsame. by simplify_eq.
    + pose proof Hfate as (new & _ & _ & _ & Hc).
      rewrite Hst in Hc. by simplify_eq.
    + pose proof Hfate as (new & _ & _ & _ & Hc).
      rewrite Hst in Hc. by simplify_eq.
  - intros b1 b2 snap c1 c2 Hpre Hfetch Hc1 Hc2.
    destruct (prefix_keeps_order b l1 r l2 o b1 _ Hnd Hsplit Ho Hpre)
      as (Ho1 & Hnd1 & Hin1 & Hm1).
    apply (pass_fate_reached b l1 r l2 b1); try done.
    pose proof (reconcile_order_by_snapshot b1 r o b2 snap Ho1 Hnd1 Hin1
                  Hfetch) as H.
    cbv zeta in H. rewrite Hm1, Hc1 in H. destruct c1.
    + by apply leaves_fate.
    + rewrite Hc2 in H. destruct c2.
      * apply leaves_fate; [by destruct H | done].
      * apply stays_fate; [by destruct H | done].
Qed.

(** *** A failure inside a pass *)

(** C3 as the code has it: when the body raises on some order, [next] raises
    the same exception and stops there: the broker is the one the failing
    body left, the orders after it are still open, their objects are
    untouched and nothing was queued for them. *)
Theorem next_stops_at_first_failure b l1 r l2 b1 b2 e :
  NoDup (open_orders b) ->
  open_orders b = l1 ++ r :: l2 ->
  for_each l1 (reconcile_order st) b = (b1, Ok tt) ->
  reconcile_order st r b1 = (b2, Raise e) ->
  next st b = (b2, Raise e)
  /\ forall r', r' ∈ l2 ->
       r' ∈ open_orders b2
       /\ heap b2 !! r' = heap b !! r'
       /\ exists new, notifs b2 = notifs b ++ new /\ queued r' new = 0%nat.
Proof.
  intros Hnd Hsplit Hpre Hstep.
  assert (Hnext : next st b = (b2, Raise e)).
  { rewrite (pass_split b l1 r l2 Hsplit). unfold bind. by rewrite Hpre, Hstep. }
  split; [done|]. intros r' Hr'.
  assert (Hrun : (for_each (l1 ++ [r]) (reconcile_order st) b).1 = b2).
  { rewrite for_each_app. unfold bind at 1. rewrite Hpre. cbn.
    unfold bind. by rewrite Hstep. }
  assert (Hnin : r' ∉ l1 ++ [r]).
  { rewrite Hsplit in Hnd. apply NoDup_app in Hnd as (_ & H1 & H2).
    apply NoDup_cons in H2 as [H2 _].
    rewrite elem_of_app, list_elem_of_singleton. intros [Hin | ->].
    - apply (H1 r' Hin). by right.
    - done. }
  pose proof (kept_for_each r' (l1 ++ [r]) b Hnin) as Hk. rewrite Hrun in Hk.
  destruct Hk as [Hh Ho _ Hn _]. split; [|done].
  apply Ho. rewrite Hsplit, elem_of_app. right. by right.
Qed.

(** *** Who asks the store for the balance *)

(** [same_balance b b']: no balance refresh was issued between [b] and [b']. *)
Definition same_balance (b b' : CCXTBroker W) : Prop :=
  balance_calls b' = balance_calls b.

#[local] Instance same_balance_preorder : PreOrder same_balance.
Proof.
  split.
  - intros b. reflexivity.
  - intros b1 b2 b3 H1 H2. unfold same_balance in *. by rewrite H2.
Qed.

Lemma respects_modify (R : relation (CCXTBroker W)) f :
  (forall b, R b (f b)) -> respects R (modify f).
Proof. intros H b. apply H. Qed.

Lemma same_balance_calls b b' : calls b' = calls b -> same_balance b b'.
Proof. unfold same_balance, balance_calls. by intros ->. Qed.

Lemma same_balance_with_store b w c :
  is_balance_call c = false -> same_balance b (with_store w c b).
Proof.
  intros Hc. unfold same_balance, balance_calls. cbn.
  rewrite List.filter_app. cbn. rewrite Hc. by rewrite app_nil_r.
Qed.

Lemma balance_fetch oid symbol params :
  respects same_balance (store_fetch_order st oid symbol params).
Proof.
  intros b. unfold store_fetch_order.
  destruct (CCXTStore.fetch_order st _ _ _ _). by apply same_balance_with_store.
Qed.

Lemma balance_create symbol order_type side amount price params :
  respects same_balance
    (store_create_order st symbol order_type side amount price params).
Proof.
  intros b. unfold store_create_order.
  destruct (CCXTStore.create_order st _ _ _ _ _ _ _).
  by apply same_balance_with_store.
Qed.

Lemma balance_cancel_order oid symbol params :
  respects same_balance (store_cancel_order st oid symbol params).
Proof.
  intros b. unfold store_cancel_order.
  destruct (CCXTStore.cancel_order st _ _ _ _). by apply same_balance_with_store.
Qed.

Lemma balance_positions :
  respects same_balance (store_get_binance_positions st).
Proof.
  intros b. unfold store_get_binance_positions.
  destruct (CCXTStore.get_binance_positions st _).
  by apply same_balance_with_store.
Qed.

Lemma balance_update_order r f : respects same_balance (update_order r f).
Proof.
  unfold update_order. respects_steps. apply respects_modify.
  intros b. by apply same_balance_calls.
Qed.

Lemma balance_notify r : respects same_balance (notify r).
Proof. intros b. by apply same_balance_calls. Qed.

Lemma balance_remove r : respects same_balance (open_orders_remove r).
Proof.
  intros b. unfold open_orders_remove.
  destruct (list_remove_first r (open_orders b)); by apply same_balance_calls.
Qed.

Lemma balance_apply_fill r fill : respects same_balance (apply_fill r fill).
Proof.
  unfold apply_fill, order_execute. respects_steps;
    apply balance_update_order.
Qed.

Lemma balance_fetch_and_apply_fills r :
  respects same_balance (fetch_and_apply_fills st r).
Proof.
  unfold fetch_and_apply_fills. respects_steps.
  - apply balance_fetch.
  - apply balance_apply_fill.
Qed.

Lemma balance_handle_canceled r snap :
  respects same_balance (handle_canceled r snap).
Proof.
  unfold handle_canceled, order_cancel. respects_steps.
  - apply balance_remove.
  - apply balance_update_order.
  - apply balance_notify.
Qed.

Lemma balance_new_order owner data snap :
  respects same_balance (new_order owner data snap).
Proof.
  unfold new_order. respects_steps. apply respects_modify.
  intros b. by apply same_balance_calls.
Qed.

Lemma balance_submit owner data exectype side amount price params :
  respects same_balance
    (_submit st owner data exectype side amount price params).
Proof.
  unfold _submit. respects_steps.
  - apply balance_create.
  - apply balance_fetch.
  - apply balance_new_order.
  - apply balance_update_order.
  - apply respects_modify. intros b. by apply same_balance_calls.
  - apply balance_notify.
Qed.

Lemma balance_close owner data size all kwargs :
  respects same_balance (close st owner data size all kwargs).
Proof.
  unfold close, forward_keywords, buy, sell. respects_steps;
    first [apply balance_positions | apply balance_submit].
Qed.

Lemma balance_cancel order params :
  respects same_balance (cancel st order params).
Proof.
  unfold cancel, order_cancel. respects_steps.
  - apply balance_fetch.
  - apply balance_cancel_order.
  - apply balance_remove.
  - apply balance_update_order.
  - apply balance_notify.
Qed.

(** The loop body refreshes the balance only for a snapshot that satisfies
    the closed condition. *)
Lemma reconcile_refreshes_only_when_closed b r :
  balance_calls (reconcile_order st r b).1 = balance_calls b
  \/ exists b2 snap,
       fetch_and_apply_fills st r b = (b2, Ok snap)
       /\ matches (Mapping.closed_order (mappings b2)) snap = Ok true.
Proof.
  pose proof (balance_fetch_and_apply_fills r b) as Hpre.
  unfold reconcile_order, bind.
  destruct (fetch_and_apply_fills st r b) as [b2 [snap|e]]; cbn [fst] in *;
    [|by left].
  assert (Hdec : matches (Mapping.closed_order (mappings b2)) snap = Ok true
                 \/ matches (Mapping.closed_order (mappings b2)) snap
                    <> Ok true).
  { destruct (matches _ snap) as [[]|e]; [by left | by right | by right]. }
  destruct Hdec as [Hc|Hc].
  - right. by exists b2, snap.
  - left. pose proof (handle_closed_not_matching b2 r snap Hc) as Hsame.
    destruct (handle_closed st r snap b2) as [b3 [[]|e]]; cbn [fst] in *;
      subst b3; [|done].
    pose proof (balance_handle_canceled r snap b2) as Hcan.
    unfold same_balance in *. by rewrite Hcan.
Qed.

(** C9: [getcash] and [getvalue] return the figure cached in the store,
    issue no call and change nothing but the broker's own copy of it; no
    submission, close or cancel asks the store for the balance, the loop body
    does so only for a snapshot that satisfies the closed condition, and
    [get_balance] always does. *)
Theorem cash_and_value_are_cached b :
  getcash st b
  = (with_cash (Some (CCXTStore._cash st (store b))) b,
     Ok (CCXTStore._cash st (store b)))
  /\ getvalue st b
     = (with_value (Some (CCXTStore._value st (store b))) b,
        Ok (CCXTStore._value st (store b)))
  /\ calls (getcash st b).1 = calls b
  /\ calls (getvalue st b).1 = calls b
  /\ store (getcash st b).1 = store b
  /\ store (getvalue st b).1 = store b
  /\ (forall owner data exectype side amount price params,
        balance_calls
          (_submit st owner data exectype side amount price params b).1
        = balance_calls b)
  /\ (forall owner data size all kwargs,
        balance_calls (close st owner data size all kwargs b).1
        = balance_calls b)
  /\ (forall order params,
        balance_calls (cancel st order params b).1 = balance_calls b)
  /\ (forall r,
        balance_calls (reconcile_order st r b).1 = balance_calls b
        \/ exists b2 snap,
             fetch_and_apply_fills st r b = (b2, Ok snap)
             /\ matches (Mapping.closed_order (mappings b2)) snap = Ok true)
  /\ balance_calls (get_balance st b).1 = balance_calls b ++ [CallGetBalance].
Proof.
  repeat split.
  - intros. apply balance_submit.
  - intros. apply balance_close.
  - intros. apply balance_cancel.
  - intros. apply reconcile_refreshes_only_when_closed.
  - unfold get_balance, bind, store_get_balance, balance_calls.
    destruct (CCXTStore.get_balance st (store b)) as [w [[]|e]]; cbn;
      rewrite List.filter_app; done.
Qed.

(** ** Further properties of the methods *)

(** *** The notification queue *)

Lemma for_each_notify b (l : list nat) :
  for_each l notify b = (with_notifs (notifs b ++ l) b, Ok tt).
Proof.
  revert b. induction l as [|r l IH]; intros b; cbn [for_each].
  - unfold ret. rewrite app_nil_r. by destruct b.
  - unfold bind, notify, modify. rewrite IH. cbn. by rewrite <- app_assoc.
Qed.

(** X1: the queue is first in, first out.  After the orders of [l] were
    notified in turn, [get_notification] hands out the oldest pending order
    and removes only it; with nothing pending it returns None and leaves the
    broker alone. *)
Theorem notifications_come_out_in_order b (l : list nat) :
  let b1 := (for_each l notify b).1 in
  (for_each l notify b).2 = Ok tt
  /\ notifs b1 = notifs b ++ l
  /\ match notifs b ++ l with
     | [] => get_notification b1 = (b1, Ok None)
     | r :: q => get_notification b1 = (with_notifs q b1, Ok (Some r))
     end.
Proof.
  rewrite for_each_notify. cbn [fst snd notifs with_notifs].
  split; [done|]. split; [done|].
  unfold get_notification. cbn [notifs with_notifs].
  by destruct (notifs b ++ l).
Qed.

(** *** Refreshing the balance *)

(** X2: [get_balance] asks the store once.  When the store answers, the
    broker's cash and value become the store's figures and are returned;
    when the store raises, the broker's cash and value stay as they were. *)
Theorem get_balance_refreshes_or_keeps b :
  let out := get_balance st b in
  match CCXTStore.get_balance st (store b) with
  | (w, Ok _) =>
      out.2 = Ok (CCXTStore._cash st w, CCXTStore._value st w)
      /\ cash out.1 = Some (CCXTStore._cash st w)
      /\ value out.1 = Some (CCXTStore._value st w)
      /\ store out.1 = w
  | (w, Raise e) =>
      out.2 = Raise e /\ cash out.1 = cash b /\ value out.1 = value b
      /\ store out.1 = w
  end
  /\ new_calls b out.1 = [CallGetBalance]
  /\ open_orders out.1 = open_orders b
  /\ notifs out.1 = notifs b
  /\ heap out.1 = heap b.
Proof.
  unfold get_balance, bind, store_get_balance, modify, gets, new_calls.
  destruct (CCXTStore.get_balance st (store b)) as [w [[]|e]]; cbn;
    rewrite drop_app_length; done.
Qed.

(** *** Submission *)

Lemma submit_passes_checks
  b owner data exectype side (amount : Z) (price : option Z) params :
  amount <> 0 ->
  price <> Some 0 ->
  _submit st owner data exectype side amount price params b
  = (let* types := gets order_types in
     let order_type :=
       match exectype ≫= types with
       | Some t => t
       | None => "market"
       end in
     let* params := lift (submit_params (clock_ms data) params) in
     let* ret_ord :=
       store_create_order st (dataname data) order_type side amount price
         params in
     let* rid := lift (getitem ret_ord "id") in
     let* _order := store_fetch_order st rid (dataname data) params in
     let* order := new_order owner data _order in
     let* p := lift (getitem ret_ord "price") in
     update_order order (CCXTOrder.with_price p) ;;;
     modify (fun b => with_open_orders (open_orders b ++ [order]) b) ;;;
     notify order ;;;
     ret (Some order)) b.
Proof.
  intros Hamount Hprice. unfold _submit.
  rewrite (proj2 (Z.eqb_neq amount 0) Hamount).
  by rewrite (bool_decide_eq_false_2 _ Hprice).
Qed.

(** X3: a submission that the exchange accepts, with keywords that hold no
    "params" entry.  The creation time of the data feed is added to the
    keywords under "created", and these are the parameters of the create
    call and of the fetch of the created order, the only two calls.  The
    new order object gets the next reference, the fetched snapshot, the
    price of the creation reply, no fills and the status Created; it is a
    buy of the snapshot's amount when the snapshot's side is "buy" and a
    sell of the negated amount otherwise.  It is appended to the open
    orders, queued once and returned. *)
Theorem submit_tracks_the_created_order
  b owner data exectype side (amount : Z) (price : option Z) params
  w1 ret_ord rid w2 snap oside (a : Z) p :
  let params' := <["created" := VScalar (SNum (clock_ms data))]> params in
  let order_type :=
    match exectype ≫= order_types b with Some t => t | None => "market" end in
  amount <> 0 ->
  price <> Some 0 ->
  params !! "params" = None ->
  CCXTStore.create_order st (dataname data) order_type side amount price
    params' (store b) = (w1, Ok ret_ord) ->
  ret_ord !! "id" = Some rid ->
  CCXTStore.fetch_order st rid (dataname data) params' w1 = (w2, Ok snap) ->
  snap !! "side" = Some oside ->
  snap !! "amount" = Some (VScalar (SNum a)) ->
  ret_ord !! "price" = Some p ->
  let isbuy := py_eqb oside (VScalar (SStr "buy")) in
  let out := _submit st owner data exectype side amount price params b in
  out.2 = Ok (Some (next_ref b))
  /\ open_orders out.1 = open_orders b ++ [next_ref b]
  /\ notifs out.1 = notifs b ++ [next_ref b]
  /\ heap out.1
     = <[next_ref b :=
           {| CCXTOrder.owner := owner;
              CCXTOrder.data := data;
              CCXTOrder.ccxt_order := snap;
              CCXTOrder.executed_fills := [];
              CCXTOrder.ordtype := if isbuy then Buy else Sell;
              CCXTOrder.size := if isbuy then a else - a;
              CCXTOrder.price := p;
              CCXTOrder.status := Created;
              CCXTOrder.executed := [] |}]> (heap b)
  /\ next_ref out.1 = S (next_ref b)
  /\ store out.1 = w2
  /\ calls out.1
     = calls b
       ++ [CallCreateOrder (dataname data) order_type side amount price
             params';
           CallFetchOrder rid (dataname data) params']
  /\ positions out.1 = positions b
  /\ cash out.1 = cash b
  /\ value out.1 = value b.
Proof.
  intros params' order_type Hamount Hprice Hparams Hcreate Hid Hfetch Hside
    Ha Hp isbuy out.
  subst out isbuy order_type.
  rewrite submit_passes_checks by done.
  unfold bind, gets, lift, submit_params. rewrite Hparams. fold params'.
  unfold store_create_order. rewrite Hcreate.
  unfold getitem. rewrite Hid.
  unfold store_fetch_order. cbn [store with_store]. rewrite Hfetch.
  unfold new_order, bind, lift, gets, modify, ret, CCXTOrder.init, getitem.
  rewrite Hside, Ha. cbn [py_float].
  rewrite Hp.
  unfold update_order, bind, deref, modify, notify, modify.
  cbn [heap next_ref with_next_ref with_heap with_store].
  rewrite lookup_insert_eq. cbn. rewrite insert_insert_eq.
  repeat split; try done. by rewrite <- app_assoc.
Qed.

(** X4: a submission that does not return an order (it raised, or it was
    rejected) tracks nothing: the open orders and the queue are as before. *)
Theorem submit_without_order_tracks_nothing
  b owner data exectype side (amount : Z) (price : option Z) params :
  let out := _submit st owner data exectype side amount price params b in
  (forall r, out.2 <> Ok (Some r)) ->
  open_orders out.1 = open_orders b /\ notifs out.1 = notifs b.
Proof.
  intros out. subst out. unfold _submit.
  destruct (Z.eqb amount 0 || bool_decide (price = Some 0)); [done|].
  unfold bind, gets, lift.
  destruct (submit_params (clock_ms data) params) as [params'|e]; [|by (intros _; cbn)].
  unfold store_create_order.
  destruct (CCXTStore.create_order st _ _ _ _ _ _ _) as [w1 [ret_ord|e]];
    [|by (intros _; cbn)].
  unfold getitem. destruct (ret_ord !! "id") as [rid|]; [|by (intros _; cbn)].
  unfold store_fetch_order.
  destruct (CCXTStore.fetch_order st _ _ _ _) as [w2 [snap|e]]; [|by (intros _; cbn)].
  unfold new_order, bind, lift, gets, modify, ret.
  destruct (CCXTOrder.init owner data snap) as [o|e]; [|by (intros _; cbn)].
  destruct (ret_ord !! "price") as [p|]; [|by (intros _; cbn)].
  unfold update_order, bind, deref, modify, notify, modify.
  cbn [heap next_ref with_next_ref with_heap with_store].
  rewrite lookup_insert_eq. cbn. intros H. by destruct (H (next_ref b)).
Qed.

(** *** What a pass keeps *)

#[local] Instance keeps_preorder {X} (f : CCXTBroker W -> X) :
  PreOrder (keeps f).
Proof.
  split.
  - intros b. reflexivity.
  - intros b1 b2 b3 H1 H2. unfold keeps in *. by rewrite H2.
Qed.

(** Closes a goal about one primitive step on a part it leaves alone. *)
Ltac keeps_leaf :=
  intros ?b;
  unfold keeps, get_balance, store_fetch_order, store_get_balance,
    store_create_order, store_cancel_order, store_get_binance_positions,
    order_execute, order_completed, order_cancel, update_order, new_order,
    bind, deref, lift, gets, ret, modify, notify, open_orders_remove,
    position_update;
  repeat case_match; simplify_eq; cbn; reflexivity.

Lemma counter_reconcile_order r :
  respects (keeps next_ref) (reconcile_order st r).
Proof.
  unfold reconcile_order, fetch_and_apply_fills, handle_closed,
    handle_canceled, apply_fill.
  respects_steps; keeps_leaf.
Qed.

Lemma counter_next : respects (keeps next_ref) (next st).
Proof.
  unfold next. respects_steps. apply counter_reconcile_order.
Qed.

(** X5: a pass keeps the broker consistent.  It opens no order (what is
    open afterwards was open before), allocates none, and queues only orders
    that were open when it started, behind what was already queued. *)
Theorem next_keeps_the_broker_consistent b :
  consistent b ->
  let b' := (next st b).1 in
  consistent b'
  /\ (forall r, r ∈ open_orders b' -> r ∈ open_orders b)
  /\ next_ref b' = next_ref b
  /\ exists new,
       notifs b' = notifs b ++ new
       /\ Forall (fun r => r ∈ open_orders b) new.
Proof.
  intros [Hnd Hopen] b'.
  pose proof (touched_for_each (open_orders b) b) as Ht.
  rewrite <- next_unfold in Ht. fold b' in Ht.
  pose proof (counter_next b) as Hc. fold b' in Hc. unfold keeps in Hc.
  assert (Hsub : forall r, r ∈ open_orders b' -> r ∈ open_orders b).
  { intros r Hr. destruct (decide (r ∈ open_orders b)) as [|Hn]; [done|].
    by apply (to_open _ _ _ Ht r Hn). }
  split; [|split; [done|split; [done|]]].
  - split; [by apply (to_nodup _ _ _ Ht)|].
    intros r Hr. destruct (Hopen r (Hsub r Hr)) as [Hlt Hal].
    split; [by rewrite Hc|]. by apply (to_alloc _ _ _ Ht).
  - apply (to_notifs _ _ _ Ht).
Qed.

(** *** Consistency through submission and cancellation *)

Lemma consistent_grow b b' :
  open_orders b' = open_orders b ->
  (next_ref b <= next_ref b')%nat ->
  (forall r, is_Some (heap b !! r) -> is_Some (heap b' !! r)) ->
  consistent b -> consistent b'.
Proof.
  intros Ho Hn Hh [Hnd Hopen]. split; rewrite Ho; [done|].
  intros r Hr. destruct (Hopen r Hr) as [Hlt Hal]. split; [lia | by apply Hh].
Qed.

Lemma consistent_append b b' :
  open_orders b' = open_orders b ++ [next_ref b] ->
  next_ref b' = S (next_ref b) ->
  (forall r, is_Some (heap b !! r) -> is_Some (heap b' !! r)) ->
  is_Some (heap b' !! next_ref b) ->
  consistent b -> consistent b'.
Proof.
  intros Ho Hn Hh Hnew [Hnd Hopen]. split; rewrite Ho.
  - apply NoDup_app. split; [done|]. split; [|apply NoDup_singleton].
    intros r Hr Hr'. apply list_elem_of_singleton in Hr'. subst r.
    destruct (Hopen _ Hr) as [Hlt _]. lia.
  - intros r Hr. rewrite Hn. apply elem_of_app in Hr as [Hr|Hr].
    + destruct (Hopen r Hr) as [Hlt Hal]. split; [lia | by apply Hh].
    + apply list_elem_of_singleton in Hr. subst r. split; [lia | done].
Qed.

(** X6: submission keeps the broker consistent, whatever the exchange
    answers: a new order object gets a reference no open order has, and an
    attempt that fails on the way leaves the open orders as they were. *)
Theorem submit_keeps_the_broker_consistent
  b owner data exectype side (amount : Z) (price : option Z) params :
  consistent b ->
  consistent (_submit st owner data exectype side amount price params b).1.
Proof.
  intros Hc. unfold _submit.
  destruct (Z.eqb amount 0 || bool_decide (price = Some 0)); [done|].
  unfold bind, gets, lift.
  destruct (submit_params (clock_ms data) params) as [params'|e]; [|done].
  unfold store_create_order.
  destruct (CCXTStore.create_order st _ _ _ _ _ _ _) as [w1 [ret_ord|e]];
    [|by apply (consistent_grow b)].
  unfold getitem. destruct (ret_ord !! "id") as [rid|];
    [|by apply (consistent_grow b)].
  unfold store_fetch_order.
  destruct (CCXTStore.fetch_order st _ _ _ _) as [w2 [snap|e]];
    [|by apply (consistent_grow b)].
  unfold new_order, bind, lift, gets, modify, ret.
  destruct (CCXTOrder.init owner data snap) as [o|e];
    [|by apply (consistent_grow b)].
  cbn [fst snd heap next_ref with_next_ref with_heap with_store].
  assert (Hins : forall (h : CCXTOrder.t) r,
             is_Some (heap b !! r) -> is_Some (<[next_ref b := h]> (heap b) !! r)).
  { intros h r Hr. destruct (decide (next_ref b = r)) as [<-|Hne].
    - rewrite lookup_insert_eq. by eexists.
    - by rewrite lookup_insert_ne. }
  destruct (ret_ord !! "price") as [p|].
  - unfold update_order, bind, deref, modify, notify, modify.
    cbn [heap next_ref with_next_ref with_heap with_store].
    rewrite lookup_insert_eq. cbn. rewrite insert_insert_eq.
    apply (consistent_append b); cbn; try done.
    + apply Hins.
    + rewrite lookup_insert_eq. by eexists.
  - apply (consistent_grow b); cbn; try done; [lia | apply Hins].
Qed.

Lemma list_remove_first_sub (x : nat) (l l' : list nat) :
  list_remove_first x l = Some l' -> forall y, y ∈ l' -> y ∈ l.
Proof.
  revert l'. induction l as [|z l IH]; cbn; intros l' H y Hy; [done|].
  destruct (decide (z = x)) as [->|Hne].
  - simplify_eq. by right.
  - destruct (list_remove_first x l) as [l0|] eqn:E; cbn in H; [|done].
    simplify_eq. apply elem_of_cons in Hy as [->|Hy]; [left|right].
    by apply (IH l0).
Qed.

Lemma touched_cancel_order (S : nat -> Prop) oid symbol params :
  respects (touched_only S) (store_cancel_order st oid symbol params).
Proof.
  intros b. unfold store_cancel_order.
  destruct (CCXTStore.cancel_order st _ _ _ _). by apply touched_only_same.
Qed.

Lemma touched_cancel order params :
  respects (touched_only (fun r => r = order)) (cancel st order params).
Proof.
  unfold cancel, order_cancel. respects_steps.
  - apply touched_fetch.
  - apply touched_cancel_order.
  - by apply touched_remove.
  - by apply touched_update_order.
  - by apply touched_notify.
Qed.

(** X7: a cancellation the exchange confirms.  The order was open, its
    fetched snapshot is not closed and the reply to the cancel call satisfies
    the canceled condition: the order leaves the open orders, becomes
    canceled, is queued once and is returned; the calls are one fetch and one
    cancel; positions, cash and value are untouched. *)
Theorem cancel_confirmed_removes_and_notifies
  b order params o oid w1 snap1 w2 snap2 l' :
  heap b !! order = Some o ->
  CCXTOrder.ccxt_order o !! "id" = Some oid ->
  CCXTStore.fetch_order st oid (dataname (CCXTOrder.data o))
    (default ∅ params) (store b) = (w1, Ok snap1) ->
  matches (Mapping.closed_order (mappings b)) snap1 = Ok false ->
  CCXTStore.cancel_order st oid (dataname (CCXTOrder.data o))
    (default ∅ params) w1 = (w2, Ok snap2) ->
  matches (Mapping.canceled_order (mappings b)) snap2 = Ok true ->
  list_remove_first order (open_orders b) = Some l' ->
  let out := cancel st order params b in
  out.2 = Ok order
  /\ open_orders out.1 = l'
  /\ heap out.1 = <[order := CCXTOrder.with_status Canceled o]> (heap b)
  /\ notifs out.1 = notifs b ++ [order]
  /\ new_calls b out.1
     = [CallFetchOrder oid (dataname (CCXTOrder.data o)) (default ∅ params);
        CallCancelOrder oid (dataname (CCXTOrder.data o)) (default ∅ params)]
  /\ positions out.1 = positions b
  /\ cash out.1 = cash b
  /\ value out.1 = value b.
Proof.
  intros Ho Hid Hfetch Hclosed Hcancel Hcanceled Hrem out. subst out.
  unfold cancel, bind, deref, lift, gets, store_fetch_order,
    store_cancel_order, getitem, new_calls.
  rewrite Ho, Hid. cbn beta iota. rewrite Hfetch. cbn.
  rewrite Hclosed. cbn. rewrite Hcancel. cbn. rewrite Hcanceled. cbn.
  unfold except_ValueError, bind, open_orders_remove, order_cancel,
    update_order, bind, deref, modify, notify, modify. cbn.
  rewrite Hrem. cbn. rewrite Ho. cbn.
  repeat split; try done.
  by rewrite <- app_assoc, drop_app_length.
Qed.

(** X8: cancellation keeps the broker consistent and never opens an order;
    the queue only grows, and only by the canceled order. *)
Theorem cancel_keeps_the_broker_consistent b order params :
  consistent b ->
  let b' := (cancel st order params b).1 in
  consistent b'
  /\ (forall r, r ∈ open_orders b' -> r ∈ open_orders b)
  /\ exists new,
       notifs b' = notifs b ++ new /\ Forall (fun r => r = order) new.
Proof.
  intros [Hnd Hopen] b'.
  pose proof (touched_cancel order params b) as Ht. fold b' in Ht.
  assert (Hsub : forall r, r ∈ open_orders b' -> r ∈ open_orders b).
  { subst b'. unfold cancel, bind, deref, lift, gets.
    destruct (heap b !! order) as [o|]; [|done].
    destruct (getitem (CCXTOrder.ccxt_order o) "id") as [oid|]; [|done].
    unfold store_fetch_order.
    destruct (CCXTStore.fetch_order st _ _ _ _) as [w1 [snap1|e]]; [|done].
    cbn [mappings with_store fst snd].
    destruct (matches (Mapping.closed_order (mappings b)) snap1)
      as [[]|e]; [done| |done].
    unfold store_cancel_order.
    destruct (CCXTStore.cancel_order st _ _ _ _) as [w2 [snap2|e]]; [|done].
    destruct (matches (Mapping.canceled_order (mappings b)) snap2)
      as [[]|e]; [|done|done].
    unfold except_ValueError, bind, open_orders_remove. cbn.
    destruct (list_remove_first order (open_orders b)) as [l'|] eqn:E;
      [|done].
    unfold order_cancel, update_order, bind, deref, modify, notify, modify.
    cbn. destruct (heap b !! order); cbn;
      intros r Hr; by apply (list_remove_first_sub order _ l' E). }
  assert (Hcnt : next_ref b' = next_ref b).
  { subst b'. unfold cancel, order_cancel.
    assert (Hk : respects (keeps next_ref) (cancel st order params)).
    { unfold cancel, order_cancel. respects_steps; keeps_leaf. }
    apply Hk. }
  split; [|split; [done|]].
  - split; [by apply (to_nodup _ _ _ Ht)|].
    intros r Hr. destruct (Hopen r (Hsub r Hr)) as [Hlt Hal].
    split; [by rewrite Hcnt|]. by apply (to_alloc _ _ _ Ht).
  - apply (to_notifs _ _ _ Ht).
Qed.

(** *** More on closing a position *)

(** X9: with [all] set, [close] only asks for the positions: no order is
    created, nothing is tracked or queued, and the result is never an
    order. *)
Theorem close_all_issues_no_order b owner data size kwargs :
  let out := close st owner data size true kwargs b in
  out.1
  = with_store (CCXTStore.get_binance_positions st (store b)).1
      CallGetPositions b
  /\ (forall r, out.2 <> Ok (Some r))
  /\ new_calls b out.1 = [CallGetPositions].
Proof.
  unfold close, bind, store_get_binance_positions, lift, new_calls.
  destruct (CCXTStore.get_binance_positions st (store b)) as [w [ps|e]];
    cbn [fst snd].
  - destruct (poses ps); cbn; rewrite drop_app_length; done.
  - cbn. rewrite drop_app_length. done.
Qed.


(** The comprehension raises on the first entry without a symbol. *)
Lemma position_amounts_missing_symbol symbol pre p post :
  Forall (fun q => exists sy, q !! "symbol" = Some sy
                              /\ scalar_eqb sy (SStr symbol) = false) pre ->
  p !! "symbol" = None ->
  position_amounts symbol (pre ++ p :: post) = Raise (KeyError "symbol").
Proof.
  induction 1 as [|q pre (sy & Hsy & Hne) _ IH]; intros Hp; cbn.
  - unfold getitem. by rewrite Hp.
  - unfold getitem at 1. rewrite Hsy, Hne. by apply IH.
Qed.

(** X11: a position entry without a symbol is not taken for "no position".
    When the entries before it belong to other symbols, [close] raises
    KeyError for "symbol" after the one positions call, whatever size was
    asked for, and no order is created. *)
Theorem close_raises_on_entry_without_symbol
  b owner data size kwargs w1 pre p post :
  CCXTStore.get_binance_positions st (store b)
  = (w1, Ok (pre ++ p :: post)) ->
  Forall (fun q => exists sy,
              q !! "symbol" = Some sy
              /\ scalar_eqb sy (SStr (remove_char "/" (dataname data)))
                 = false) pre ->
  p !! "symbol" = None ->
  close st owner data size false kwargs b
  = (with_store w1 CallGetPositions b, Raise (KeyError "symbol")).
Proof.
  intros Hpos Hpre Hp.
  unfold close, bind, store_get_binance_positions, lift.
  rewrite Hpos. cbn [fst snd].
  by rewrite (position_amounts_missing_symbol _ pre p post Hpre Hp).
Qed.

(** *** Fills *)

Lemma dict_not_among_scalars (d : gmap string scalar) (l : list pyval) :
  Forall (fun v => exists x, v = VScalar x) l -> py_in (VDict d) l = false.
Proof.
  induction 1 as [|v l [x ->] _ IH]; [done|]. cbn. exact IH.
Qed.

Lemma executed_size_app bits dt (a p : Z) :
  executed_size (bits ++ [(dt, SNum a, SNum p)]) = executed_size bits + a.
Proof.
  induction bits as [|[[d sz] pr] bits IH]; cbn; [lia|].
  rewrite IH. destruct sz, pr; cbn; lia.
Qed.

Lemma apply_fills_in_order r fills :
  forall fields b o,
    heap b !! r = Some o ->
    Forall (fun v => exists x, v = VScalar x) (CCXTOrder.executed_fills o) ->
    0 <= executed_size (CCXTOrder.executed o) ->
    Forall2 fill_holds fills fields ->
    forallb fill_executes fields = true ->
    for_each (VDict <$> fills) (apply_fill r) b
    = (with_heap
         (<[r := CCXTOrder.with_fills
                   (CCXTOrder.executed_fills o
                    ++ ((fun f => VScalar f.2) <$> fields))
                   (CCXTOrder.with_executed
                      (CCXTOrder.executed o ++ (fst <$> fields)) o)]>
            (heap b)) b, Ok tt).
Proof.
  induction fills as [|d fills IH]; intros fields b o Ho Hsc Hsize Hall Hex.
  - apply Forall2_nil_inv_l in Hall. subst fields. cbn. unfold ret.
    rewrite !app_nil_r.
    replace (CCXTOrder.with_fills _ _) with o by (by destruct o).
    rewrite insert_id by done. by destruct b.
  - apply Forall2_cons_inv_l in Hall
      as ([[[dt amount] price] fid] & fields' & Hd & Hall & ->).
    destruct Hd as (Hdt & Ham & Hpr & Hfid). cbn in Hdt, Ham, Hpr, Hfid.
    cbn [forallb] in Hex. apply andb_prop in Hex as [Hf Hex].
    destruct amount as [| |a|]; try discriminate Hf.
    destruct price as [| |p|]; try discriminate Hf.
    cbn in Hf. apply Z.ltb_lt in Hf.
    cbn [fmap list_fmap for_each].
    unfold bind at 1. unfold apply_fill at 1.
    unfold bind at 1, deref at 1. rewrite Ho.
    rewrite (dict_not_among_scalars d _ Hsc). cbn [negb].
    unfold bind, lift, subscript, getitem.
    rewrite Hdt, Ham, Hpr, Hfid.
    unfold order_execute, update_order, bind, deref, modify, lift.
    cbn [truthy numeric].
    replace (Z.eqb a 0) with false by (symmetry; apply Z.eqb_neq; lia).
    cbn [negb].
    rewrite Ho. cbn [heap with_heap fst snd].
    rewrite lookup_insert_eq. cbn [heap with_heap fst snd CCXTOrder.executed
                                   CCXTOrder.with_executed].
    rewrite executed_size_app.
    replace (Z.eqb (executed_size (CCXTOrder.executed o) + a) 0) with false
      by (symmetry; apply Z.eqb_neq; lia).
    unfold ret. cbn [heap with_heap fst snd].
    rewrite lookup_insert_eq. cbn [heap with_heap fst snd].
    rewrite insert_insert_eq.
    match goal with
    | |- for_each _ _ ?b2 = _ =>
        rewrite (IH fields' b2 _ (lookup_insert_eq _ _ _) )
    end.
    + cbn [heap with_heap]. rewrite insert_insert_eq.
      cbn. rewrite <- !app_assoc. reflexivity.
    + cbn. apply Forall_app. split; [done|].
      apply Forall_singleton. by eexists.
    + cbn. rewrite executed_size_app. lia.
    + done.
    + done.
Qed.

(** X12: a poll books every fill of the snapshot that [execute] accepts.
    For an order whose recorded identifiers are scalars (as everything [next]
    records is), whose executed size is not negative, and a trade list of
    fill dictionaries with positive sizes and numbers for prices, fetching
    executes each fill in the order of the list and records its identifier
    after it, whether or not that identifier was recorded before; nothing
    else in the broker changes. *)
Theorem poll_executes_every_listed_fill
  b r o oid w snap fills fields :
  heap b !! r = Some o ->
  CCXTOrder.ccxt_order o !! "id" = Some oid ->
  CCXTStore.fetch_order st oid (dataname (CCXTOrder.data o)) params_future
    (store b) = (w, Ok snap) ->
  snap !! "trades" = Some (VList fills) ->
  Forall (fun v => exists x, v = VScalar x) (CCXTOrder.executed_fills o) ->
  0 <= executed_size (CCXTOrder.executed o) ->
  Forall2 fill_holds fills fields ->
  forallb fill_executes fields = true ->
  fetch_and_apply_fills st r b
  = (with_heap
       (<[r := CCXTOrder.with_fills
                 (CCXTOrder.executed_fills o
                  ++ ((fun f => VScalar f.2) <$> fields))
                 (CCXTOrder.with_executed
                    (CCXTOrder.executed o ++ (fst <$> fields)) o)]>
          (heap b))
       (with_store w
          (CallFetchOrder oid (dataname (CCXTOrder.data o)) params_future) b),
     Ok snap).
Proof.
  intros Ho Hid Hfetch Htrades Hsc Hsize Hall Hex.
  unfold fetch_and_apply_fills.
  unfold bind at 1, deref. rewrite Ho.
  unfold bind at 1, lift, getitem. rewrite Hid.
  unfold bind at 1, store_fetch_order. rewrite Hfetch.
  unfold bind at 1. rewrite Htrades.
  rewrite bool_decide_eq_false_2 by done.
  unfold bind at 1. unfold bind at 1. cbn [py_iter].
  rewrite (apply_fills_in_order r fills fields _ o); try done.
Qed.

(** X13: a snapshot whose trade list is None executes nothing: fetching
    changes the store and the call log only, and hands the snapshot on to
    the checks. *)
Theorem poll_without_trades_executes_nothing b r o oid w snap :
  heap b !! r = Some o ->
  CCXTOrder.ccxt_order o !! "id" = Some oid ->
  CCXTStore.fetch_order st oid (dataname (CCXTOrder.data o)) params_future
    (store b) = (w, Ok snap) ->
  snap !! "trades" = Some (VScalar SNone) ->
  fetch_and_apply_fills st r b
  = (with_store w
       (CallFetchOrder oid (dataname (CCXTOrder.data o)) params_future) b,
     Ok snap).
Proof.
  intros Ho Hid Hfetch Htrades.
  unfold fetch_and_apply_fills.
  unfold bind at 1, deref. rewrite Ho.
  unfold bind at 1, lift, getitem. rewrite Hid.
  unfold bind at 1, store_fetch_order. rewrite Hfetch.
  unfold bind at 1. rewrite Htrades.
  by rewrite bool_decide_eq_true_2.
Qed.

(** X14: a snapshot without a "trades" entry stops the loop body with
    KeyError before either condition is looked at: whatever its status says,
    the order is neither completed nor canceled, stays open and is not
    queued. *)
Theorem poll_without_trades_key_raises b r o oid w snap :
  heap b !! r = Some o ->
  CCXTOrder.ccxt_order o !! "id" = Some oid ->
  CCXTStore.fetch_order st oid (dataname (CCXTOrder.data o)) params_future
    (store b) = (w, Ok snap) ->
  snap !! "trades" = None ->
  reconcile_order st r b
  = (with_store w
       (CallFetchOrder oid (dataname (CCXTOrder.data o)) params_future) b,
     Raise (KeyError "trades")).
Proof.
  intros Ho Hid Hfetch Htrades.
  unfold reconcile_order, fetch_and_apply_fills.
  unfold bind at 1. unfold bind at 1, deref. rewrite Ho.
  unfold bind at 1, lift, getitem. rewrite Hid.
  unfold bind at 1, store_fetch_order. rewrite Hfetch.
  unfold bind at 1. by rewrite Htrades.
Qed.

(** *** The ledger *)






Lemma ledger_fetch_and_apply_fills r :
  respects (keeps ledger) (fetch_and_apply_fills st r).
Proof.
  unfold fetch_and_apply_fills, apply_fill.
  respects_steps; keeps_leaf.
Qed.

Lemma ledger_handle_canceled r snap :
  respects (keeps ledger) (handle_canceled r snap).
Proof. unfold handle_canceled. respects_steps; keeps_leaf. Qed.

(** X16: only completion touches the ledger.  When the fetched snapshot
    does not satisfy the closed condition, be it canceled or still open, the
    loop body leaves positions, cash and value as they were and does not ask
    the store for the balance. *)
Theorem open_or_canceled_snapshot_keeps_the_ledger b r b2 snap :
  fetch_and_apply_fills st r b = (b2, Ok snap) ->
  matches (Mapping.closed_order (mappings b)) snap = Ok false ->
  let out := reconcile_order st r b in
  positions out.1 = positions b
  /\ cash out.1 = cash b
  /\ value out.1 = value b
  /\ balance_calls out.1 = balance_calls b.
Proof.
  intros Hfetch Hclosed out.
  pose proof (tracking_fetch_and_apply_fills r b) as [_ _ Hmaps _].
  pose proof (ledger_fetch_and_apply_fills r b) as Hled.
  pose proof (balance_fetch_and_apply_fills r b) as Hbal.
  rewrite Hfetch in Hmaps, Hled, Hbal. cbn [fst] in Hmaps, Hled, Hbal.
  assert (Hout : out = handle_canceled r snap b2).
  { subst out. unfold reconcile_order. unfold bind at 1. rewrite Hfetch.
    unfold bind, handle_closed, bind, gets, lift.
    by rewrite Hmaps, Hclosed. }
  pose proof (ledger_handle_canceled r snap b2) as Hled2.
  pose proof (balance_handle_canceled r snap b2) as Hbal2.
  rewrite <- Hout in Hled2, Hbal2.
  unfold keeps, ledger, same_balance in *.
  rewrite Hled in Hled2. rewrite Hbal in Hbal2.
  by simplify_eq.
Qed.

(** *** The calls of a pass *)

Lemma filter_calls_with_store (p : Call -> bool) b w c :
  p c = false ->
  List.filter p (calls (with_store w c b)) = List.filter p (calls b).
Proof.
  intros Hc. cbn. rewrite List.filter_app. cbn. rewrite Hc.
  by rewrite app_nil_r.
Qed.

Lemma order_calls_fetch oid symbol params :
  respects (keeps order_calls) (store_fetch_order st oid symbol params).
Proof.
  intros b. unfold store_fetch_order, keeps, order_calls.
  destruct (CCXTStore.fetch_order st _ _ _ _).
  by apply filter_calls_with_store.
Qed.

Lemma order_calls_get_balance :
  respects (keeps order_calls) (get_balance st).
Proof.
  intros b. unfold get_balance, bind, store_get_balance, modify, gets, keeps,
    order_calls.
  destruct (CCXTStore.get_balance st _) as [w [[]|e]];
    by apply filter_calls_with_store.
Qed.

Lemma order_calls_reconcile_order r :
  respects (keeps order_calls) (reconcile_order st r).
Proof.
  unfold reconcile_order, fetch_and_apply_fills, handle_closed,
    handle_canceled, apply_fill.
  respects_steps;
    first [apply order_calls_fetch | apply order_calls_get_balance
          | keeps_leaf].
Qed.

(** X17: a pass only reads from the exchange: it issues no create and no
    cancel call, however many orders it completes or cancels locally and
    however it ends. *)
Theorem next_issues_no_order_call b :
  List.filter is_create_call (calls (next st b).1)
  = List.filter is_create_call (calls b)
  /\ List.filter is_cancel_call (calls (next st b).1)
     = List.filter is_cancel_call (calls b).
Proof.
  assert (H : respects (keeps order_calls) (next st)).
  { unfold next. respects_steps. apply order_calls_reconcile_order. }
  specialize (H b). unfold keeps, order_calls in H.
  assert (Hsplit : forall p l,
             (forall c, p c = true -> is_order_call c = true) ->
             List.filter p l = List.filter p (List.filter is_order_call l)).
  { intros p l Hp. induction l as [|c l IH]; [done|]. cbn.
    destruct (p c) eqn:Hc.
    - rewrite (Hp c Hc). cbn. by rewrite Hc, IH.
    - destruct (is_order_call c); cbn; by rewrite ?Hc, IH. }
  split.
  - rewrite (Hsplit is_create_call (calls (next st b).1)),
      (Hsplit is_create_call (calls b)), H; [done| |];
      intros c Hc; unfold is_order_call; by rewrite Hc.
  - rewrite (Hsplit is_cancel_call (calls (next st b).1)),
      (Hsplit is_cancel_call (calls b)), H; [done| |];
      intros c Hc; unfold is_order_call; rewrite Hc; apply orb_true_r.
Qed.

Lemma fetch_calls_get_balance :
  respects (keeps fetch_calls) (get_balance st).
Proof.
  intros b. unfold get_balance, bind, store_get_balance, modify, gets, keeps,
    fetch_calls.
  destruct (CCXTStore.get_balance st _) as [w [[]|e]]; cbn;
    rewrite List.filter_app; cbn; by rewrite app_nil_r.
Qed.

#[local] Instance same_polls_preorder : PreOrder (@same_polls W).
Proof.
  split.
  - intros b r. reflexivity.
  - intros b1 b2 b3 H1 H2 r. by rewrite H2.
Qed.

Lemma polls_keeps_heap {A} (m : M W A) :
  respects (keeps heap) m -> respects same_polls m.
Proof.
  intros Hm b r. specialize (Hm b). unfold keeps in Hm.
  unfold poll_call. by rewrite Hm.
Qed.

Lemma polls_update_order r f :
  (forall o, CCXTOrder.ccxt_order (f o) = CCXTOrder.ccxt_order o
             /\ CCXTOrder.data (f o) = CCXTOrder.data o) ->
  respects same_polls (update_order r f).
Proof.
  intros Hf b r'. unfold update_order, bind, deref, modify.
  destruct (heap b !! r) as [o|] eqn:E; cbn; [|reflexivity].
  unfold poll_call. cbn.
  destruct (decide (r = r')) as [<-|Hne].
  - rewrite lookup_insert_eq, E. by destruct (Hf o) as [-> ->].
  - by rewrite lookup_insert_ne.
Qed.

Ltac polls_leaf :=
  first [ apply polls_update_order; by intros []
        | refine (polls_keeps_heap _ _); keeps_leaf ].

Lemma polls_reconcile_order r :
  respects same_polls (reconcile_order st r).
Proof.
  unfold reconcile_order, fetch_and_apply_fills, handle_closed,
    handle_canceled, apply_fill, order_execute, order_completed,
    order_cancel.
  respects_steps; polls_leaf.
Qed.

(** The loop body once the snapshot is there. *)
Lemma reconcile_order_after_fetch b r o oid w snap :
  heap b !! r = Some o ->
  CCXTOrder.ccxt_order o !! "id" = Some oid ->
  CCXTStore.fetch_order st oid (dataname (CCXTOrder.data o)) params_future
    (store b) = (w, Ok snap) ->
  reconcile_order st r b
  = bind
      (let* trades := lift (getitem snap "trades") in
       (if bool_decide (trades = VScalar SNone) then ret tt
        else
          let* fills := lift (py_iter trades) in
          for_each fills (apply_fill r)) ;;;
       ret snap)
      (fun ccxt_order =>
         handle_closed st r ccxt_order ;;; handle_canceled r ccxt_order)
      (with_store w
         (CallFetchOrder oid (dataname (CCXTOrder.data o)) params_future) b).
Proof.
  intros Ho Hid Hfetch.
  unfold reconcile_order, fetch_and_apply_fills.
  unfold bind at 1. unfold bind at 1, deref. rewrite Ho.
  unfold bind at 1, lift at 1, getitem at 1. rewrite Hid.
  unfold bind at 1, store_fetch_order. rewrite Hfetch.
  reflexivity.
Qed.

Lemma reconcile_order_fetches_once b r b' :
  reconcile_order st r b = (b', Ok tt) ->
  exists c, poll_call b r = Some c /\ fetch_calls b' = fetch_calls b ++ [c].
Proof.
  intros Hrun. unfold poll_call.
  destruct (heap b !! r) as [o|] eqn:Ho.
  2:{ unfold reconcile_order, fetch_and_apply_fills, bind, deref in Hrun.
      by rewrite Ho in Hrun. }
  destruct (CCXTOrder.ccxt_order o !! "id") as [oid|] eqn:Hid.
  2:{ unfold reconcile_order, fetch_and_apply_fills, bind, deref, lift,
        getitem in Hrun.
      by rewrite Ho, Hid in Hrun. }
  destruct (CCXTStore.fetch_order st oid (dataname (CCXTOrder.data o))
              params_future (store b)) as [w [snap|e]] eqn:Hfetch.
  2:{ unfold reconcile_order, fetch_and_apply_fills, bind, deref, lift,
        getitem, store_fetch_order in Hrun.
      by rewrite Ho, Hid, Hfetch in Hrun. }
  rewrite (reconcile_order_after_fetch b r o oid w snap Ho Hid Hfetch)
    in Hrun.
  match type of Hrun with
  | ?m ?b1 = _ =>
      assert (Hk : respects (keeps fetch_calls) m)
  end.
  { unfold handle_closed, handle_canceled, apply_fill.
    respects_steps; first [apply fetch_calls_get_balance | keeps_leaf]. }
  match type of Hrun with
  | ?m ?b1 = _ => specialize (Hk b1)
  end.
  rewrite Hrun in Hk. unfold keeps in Hk. cbn [fst] in Hk.
  eexists. split; [reflexivity|]. rewrite Hk.
  unfold fetch_calls. cbn. by rewrite List.filter_app.
Qed.

Lemma pass_fetches_in_order l :
  forall b b',
    for_each l (reconcile_order st) b = (b', Ok tt) ->
    exists polls,
      Forall2 (fun r c => poll_call b r = Some c) l polls
      /\ fetch_calls b' = fetch_calls b ++ polls.
Proof.
  induction l as [|r l IH]; intros b b' Hrun; cbn [for_each] in Hrun.
  - unfold ret in Hrun. simplify_eq. exists []. split; [constructor|].
    by rewrite app_nil_r.
  - unfold bind in Hrun.
    destruct (reconcile_order st r b) as [b1 [[]|e]] eqn:Hstep; [|done].
    pose proof (polls_reconcile_order r b) as Hsame.
    rewrite Hstep in Hsame. cbn [fst] in Hsame.
    destruct (reconcile_order_fetches_once b r b1 Hstep) as (c & Hc & Hb1).
    destruct (IH b1 b' Hrun) as (polls & Hpolls & Hb').
    exists (c :: polls). split.
    + constructor; [exact Hc|].
      eapply Forall2_impl; [exact Hpolls|].
      intros r' c' Hc'. cbn in Hc'. by rewrite <- (Hsame r').
    + by rewrite Hb', Hb1, <- app_assoc.
Qed.

(** X18: a pass that ends normally has fetched every open order exactly
    once, in the order of the list: the fetches it added to the call log
    are, one for each order that was open when it started, the fetch of that
    order's identifier on the market of its data feed with the parameters
    of the futures market. *)
Theorem completed_pass_fetches_each_open_order_once b b' :
  next st b = (b', Ok tt) ->
  exists polls,
    Forall2 (fun r c => poll_call b r = Some c) (open_orders b) polls
    /\ fetch_calls b' = fetch_calls b ++ polls.
Proof.
  rewrite next_unfold. apply pass_fetches_in_order.
Qed.

(** *** The wallet, the open orders of the exchange, private end points *)

(** X19: [get_wallet_balance] reports the free and the total figure of the
    currency, with 0 in place of a figure that is None, zero or empty, and
    raises KeyError when the currency is missing from either part; it changes
    the store only, not the cash and value the broker caches. *)
Theorem wallet_balance_figures
  (swb : string -> gmap string pyval -> W -> W * result (gmap string pyval))
  b currency params w balance f t :
  swb currency params (store b) = (w, Ok balance) ->
  balance !! "free" = Some (VDict f) ->
  balance !! "total" = Some (VDict t) ->
  get_wallet_balance swb currency params b
  = (with_store_state w b,
     match f !! currency, t !! currency with
     | Some x, Some y =>
         Ok (if truthy x then x else SNum 0, if truthy y then y else SNum 0)
     | _, _ => Raise (KeyError currency)
     end).
Proof.
  intros Hswb Hf Ht.
  unfold get_wallet_balance, bind, lift, wallet_figure, getitem, subscript,
    getitem, ret.
  rewrite Hswb, Hf, Ht.
  destruct (f !! currency) as [x|]; [|done].
  by destruct (t !! currency) as [y|].
Qed.

Lemma orders_of_symbol_filter symbol (ret_ : list (gmap string pyval)) :
  Forall (fun o => is_Some (o !! "symbol")) ret_ ->
  orders_of_symbol symbol ret_ = Ok (List.filter (has_symbol symbol) ret_).
Proof.
  induction 1 as [|o os [v Hv] _ IH]; [done|].
  cbn. unfold getitem, has_symbol. rewrite Hv, IH. done.
Qed.

(** X20: [get_orders_open] with a symbol returns the entries of the store's
    reply whose symbol equals it, in the reply's order; with no symbol, or
    the empty one, it returns the reply as it is. *)
Theorem get_orders_open_filters_by_symbol
  (sfo : option string -> W -> W * result (list (gmap string pyval)))
  b safe symbol w ret_ :
  sfo symbol (store b) = (w, Ok ret_) ->
  (forall s, symbol = Some s -> s <> "" ->
             Forall (fun o => is_Some (o !! "symbol")) ret_) ->
  get_orders_open sfo safe symbol b
  = (with_store_state w b,
     Ok match symbol with
        | Some s =>
            if String.eqb s "" then ret_
            else List.filter (has_symbol s) ret_
        | None => ret_
        end).
Proof.
  intros Hsfo Hall. unfold get_orders_open, bind. rewrite Hsfo.
  destruct symbol as [s|]; [|done].
  destruct (String.eqb s "") eqn:Hs; cbn [negb]; [done|].
  unfold lift. rewrite orders_of_symbol_filter; [done|].
  apply (Hall s eq_refl). intros ->. done.
Qed.

(** X22: [getposition] never raises.  It returns the updates recorded for
    the data name, none for a name it has not seen, and from then on the name
    has a position; other names and the rest of the broker are untouched, and
    asking again changes nothing. *)
Theorem getposition_creates_on_first_access b data clone :
  let out := getposition data clone b in
  out.2 = Ok (default [] (positions b !! _dataname data))
  /\ positions out.1 !! _dataname data
     = Some (default [] (positions b !! _dataname data))
  /\ (forall k, k <> _dataname data ->
                positions out.1 !! k = positions b !! k)
  /\ getposition data clone out.1 = out
  /\ open_orders out.1 = open_orders b
  /\ notifs out.1 = notifs b
  /\ heap out.1 = heap b
  /\ calls out.1 = calls b.
Proof.
  unfold getposition.
  destruct (positions b !! _dataname data) as [pos|] eqn:E; cbn.
  - rewrite E. done.
  - rewrite lookup_insert_eq. repeat split; try done.
    intros k Hk. by rewrite lookup_insert_ne.
Qed.

Lemma lower_lower (s : string) : lower (lower s) = lower s.
Proof.
  induction s as [|c s IH]; [done|]. cbn. rewrite IH. f_equal.
  destruct c as [[] [] [] [] [] [] [] []]; reflexivity.
Qed.

Lemma endpoint_part_one_pass (e : string) :
  lower (remove_char "}" (remove_char "{" (replace_char "/" "_" e)))
  = endpoint_name e.
Proof.
  induction e as [|c e IH]; [done|].
  destruct c as [[] [] [] [] [] [] [] []]; cbn; by rewrite IH.
Qed.

Lemma endpoint_name_clean (e : string) :
  string_all method_char (endpoint_name e) = true.
Proof.
  induction e as [|c e IH]; [done|].
  destruct c as [[] [] [] [] [] [] [] []]; cbn; exact IH.
Qed.

Lemma endpoint_char_length (c : Ascii.ascii) :
  (String.length (endpoint_char c) <= 1)%nat.
Proof.
  destruct c as [[] [] [] [] [] [] [] []]; vm_compute; lia.
Qed.

Lemma append_length (s1 s2 : string) :
  String.length (String.append s1 s2)
  = (String.length s1 + String.length s2)%nat.
Proof.
  induction s1 as [|c s1 IH]; [done|].
  simpl. f_equal. exact IH.
Qed.

Lemma endpoint_name_length (e : string) :
  (String.length (endpoint_name e) <= String.length e)%nat.
Proof.
  induction e as [|c e IH]; [done|].
  cbn [endpoint_name String.length]. rewrite append_length.
  pose proof (endpoint_char_length c). lia.
Qed.

Lemma lower_char_not_special (c x : Ascii.ascii) :
  x = "/"%char \/ x = "{"%char \/ x = "}"%char ->
  Ascii.eqb (lower_char c) x = Ascii.eqb c x.
Proof.
  intros [-> | [-> | ->]];
    destruct c as [[] [] [] [] [] [] [] []]; reflexivity.
Qed.

Lemma lower_replace_slash (s : string) :
  replace_char "/" "_" (lower s) = lower (replace_char "/" "_" s).
Proof.
  induction s as [|c s IH]; [done|].
  cbn [lower replace_char]. rewrite IH, lower_char_not_special by auto.
  by destruct (Ascii.eqb c "/").
Qed.

Lemma lower_remove_brace (x : Ascii.ascii) (s : string) :
  x = "{"%char \/ x = "}"%char ->
  remove_char x (lower s) = lower (remove_char x s).
Proof.
  intros Hx. induction s as [|c s IH]; [done|].
  cbn [lower remove_char]. rewrite IH, lower_char_not_special by tauto.
  by destruct (Ascii.eqb c x).
Qed.

Lemma endpoint_part_lower (e : string) :
  lower (remove_char "}" (remove_char "{" (replace_char "/" "_" (lower e))))
  = lower (remove_char "}" (remove_char "{" (replace_char "/" "_" e))).
Proof.
  rewrite lower_replace_slash.
  rewrite (lower_remove_brace "{") by auto.
  rewrite (lower_remove_brace "}") by auto.
  apply lower_lower.
Qed.

(** X21: the method name [private_end_point] hands to the store, for a
    type and an endpoint of ASCII characters.  It is "private_", then the
    type in lower case, then the endpoint read character by character:
    every slash has become an underscore, every brace is gone, every
    upper-case letter is its lower-case letter and every other character is
    itself.  So the endpoint's part holds no slash, brace or upper-case
    letter and is no longer than the endpoint, and the name does not depend
    on the letter case of the type or of the endpoint. *)
Theorem method_name_of_an_endpoint (type endpoint : string) :
  string_all is_ascii type = true ->
  string_all is_ascii endpoint = true ->
  method_str type endpoint
  = String.append "private_"
      (String.append (lower type) (endpoint_name endpoint))
  /\ string_all method_char (endpoint_name endpoint) = true
  /\ (String.length (endpoint_name endpoint) <= String.length endpoint)%nat
  /\ method_str (lower type) (lower endpoint) = method_str type endpoint.
Proof.
  intros _ _.
  split; [unfold method_str; by rewrite endpoint_part_one_pass|].
  split; [apply endpoint_name_clean|].
  split; [apply endpoint_name_length|].
  unfold method_str. by rewrite lower_lower, endpoint_part_lower.
Qed.

(** *** Keyword arguments of buy and sell *)

(** X23: [buy] and [sell] drop the keyword arguments "parent" and
    "transmit" before anything else: whatever values they carry, the outcome
    is that of the call without them, so they never reach the exchange. *)
Theorem buy_and_sell_ignore_parent_and_transmit
  b owner data (size : Z) (price : option Z) exectype kwargs vp vt :
  buy st owner data size price exectype
    (<["parent" := vp]> (<["transmit" := vt]> kwargs)) b
  = buy st owner data size price exectype kwargs b
  /\ sell st owner data size price exectype
       (<["parent" := vp]> (<["transmit" := vt]> kwargs)) b
     = sell st owner data size price exectype kwargs b.
Proof.
  assert (H : delete "transmit"
                (delete "parent"
                   (<["parent" := vp]> (<["transmit" := vt]> kwargs)))
              = delete "transmit" (delete "parent" kwargs)).
  { rewrite delete_insert_eq.
    rewrite (delete_insert_ne kwargs "parent" "transmit") by done.
    by rewrite delete_insert_eq. }
  unfold buy, sell. by rewrite H.
Qed.

End Properties.

(** ** The properties on concrete brokers *)

(** C1 fails on the code: the membership test of line 210 compares the fill
    dictionary with the identifiers stored by line 216, so it never finds
    it.  One open order, an exchange that reports the same single fill "f1"
    at both polls: after the second pass the fill has been executed twice
    and its identifier is recorded twice. *)
Theorem fill_f1_applied_again_on_second_poll :
  let b1 := (next exchange_open_with_f1 broker_o1).1 in
  let b2 := (next exchange_open_with_f1 b1).1 in
  (next exchange_open_with_f1 broker_o1).2 = Ok tt
  /\ (next exchange_open_with_f1 b1).2 = Ok tt
  /\ CCXTOrder.executed_fills <$> heap b1 !! 0%nat = Some [str "f1"]
  /\ CCXTOrder.executed <$> heap b2 !! 0%nat
     = Some [(SStr "2023-11-14T22:13:20Z", SNum 1, SNum 100);
             (SStr "2023-11-14T22:13:20Z", SNum 1, SNum 100)]
  /\ CCXTOrder.executed_fills <$> heap b2 !! 0%nat
     = Some [str "f1"; str "f1"].
Proof. vm_compute. repeat split; reflexivity. Qed.

(** C2 fails on the code: with a snapshot that satisfies both conditions the
    closed path runs (position update, completion, notification, removal,
    balance refresh) and then the canceled path's [remove] raises
    [ValueError], which ends the pass: the second open order is not
    reached. *)
Theorem closed_and_canceled_snapshot_raises :
  let out := next exchange_closed_and_canceled broker_docstring_o1_o2 in
  out.2 = Raise ValueError
  /\ open_orders out.1 = [1%nat]
  /\ notifs out.1 = [0%nat]
  /\ order_status out.1 0%nat = Some Completed
  /\ positions out.1 !! "BTC/USD" = Some [(1, num 100)]
  /\ balance_calls out.1 = [CallGetBalance]
  /\ List.length (List.filter is_fetch_call (calls out.1)) = 1%nat
  /\ order_status out.1 1%nat = Some Created.
Proof. vm_compute. repeat split; reflexivity. Qed.

Lemma NoDup_two_orders : NoDup (open_orders broker_o1_o2).
Proof. apply (bool_decide_unpack _). vm_compute. exact I. Defined.

Lemma NoDup_one_order : NoDup (open_orders broker_o1).
Proof. apply (bool_decide_unpack _). vm_compute. exact I. Defined.

(** C3 fails on the code: the fetch of the first order times out, [next]
    raises and the second open order is never polled. *)
Lemma failed_fetch_ends_the_pass :
  ~ every_open_order_polled exchange_o1_times_out broker_o1_o2.
Proof.
  intros H.
  destruct (H 1%nat (tracked_order "o2") (str "o2")) as (symbol & params & Hin).
  - apply (bool_decide_unpack _). vm_compute. exact I.
  - reflexivity.
  - reflexivity.
  - assert (Hcalls :
      drop (length (calls broker_o1_o2))
        (calls (next exchange_o1_times_out broker_o1_o2).1)
      = [CallFetchOrder (str "o1") "BTC/USD" params_future])
      by (vm_compute; reflexivity).
    rewrite Hcalls in Hin. apply list_elem_of_singleton in Hin. discriminate.
Qed.

Lemma next_stops_at_first_failure_witness :
  let b2 := (reconcile_order exchange_o1_times_out 0%nat broker_o1_o2).1 in
  next exchange_o1_times_out broker_o1_o2 = (b2, Raise (ExchangeError "timeout"))
  /\ forall r', r' ∈ [1%nat] ->
       r' ∈ open_orders b2
       /\ heap b2 !! r' = heap broker_o1_o2 !! r'
       /\ exists new, notifs b2 = notifs broker_o1_o2 ++ new
                      /\ queued r' new = 0%nat.
Proof.
  apply (next_stops_at_first_failure exchange_o1_times_out broker_o1_o2
           [] 0%nat [1%nat] broker_o1_o2).
  - exact NoDup_two_orders.
  - reflexivity.
  - reflexivity.
  - vm_compute. reflexivity.
Defined.

Lemma submit_zero_size_or_price_rejected_witness :
  _submit exchange_short_eth 0%nat btc_usd (Some Limit) "buy" 0 (Some 100) ∅
    broker_o1 = (broker_o1, Ok None)
  /\ buy exchange_short_eth 0%nat btc_usd 0 (Some 100) (Some Limit) ∅ broker_o1
     = (broker_o1, Ok None)
  /\ sell exchange_short_eth 0%nat btc_usd 0 (Some 100) (Some Limit) ∅ broker_o1
     = (broker_o1, Ok None).
Proof.
  apply (submit_zero_size_or_price_rejected exchange_short_eth broker_o1
           0%nat btc_usd (Some Limit) "buy" 0 (Some 100) ∅).
  left. reflexivity.
Defined.

Lemma cancel_closed_order_untouched_witness :
  let b' := (cancel exchange_o1_closed 0%nat None broker_o1).1 in
  (cancel exchange_o1_closed 0%nat None broker_o1).2 = Ok 0%nat
  /\ heap b' = heap broker_o1
  /\ open_orders b' = open_orders broker_o1
  /\ notifs b' = notifs broker_o1
  /\ calls b' = calls broker_o1 ++ [CallFetchOrder (str "o1") "BTC/USD" ∅]
  /\ List.filter is_cancel_call (calls b')
     = List.filter is_cancel_call (calls broker_o1).
Proof.
  apply (cancel_closed_order_untouched exchange_o1_closed broker_o1 0%nat None
           (tracked_order "o1") (str "o1") tt
           (snapshot_o1 "closed" (VScalar SNone))).
  - reflexivity.
  - reflexivity.
  - reflexivity.
  - vm_compute. reflexivity.
Defined.

(** The broker that lost track of order "o1": the object exists, the open
    orders do not list it. *)
Lemma cancel_absent_order_swallowed_witness :
  let b := with_open_orders [] broker_o1 in
  let b' := (cancel (exchange_cancel_answers "canceled") 0%nat None b).1 in
  (cancel (exchange_cancel_answers "canceled") 0%nat None b).2 = Ok 0%nat
  /\ heap b' = heap b
  /\ open_orders b' = open_orders b
  /\ notifs b' = notifs b
  /\ calls b'
     = calls b ++ [CallFetchOrder (str "o1") "BTC/USD" ∅;
                   CallCancelOrder (str "o1") "BTC/USD" ∅].
Proof.
  apply (cancel_absent_order_swallowed (exchange_cancel_answers "canceled")
           (with_open_orders [] broker_o1) 0%nat None
           (tracked_order "o1") (str "o1") tt
           (snapshot_o1 "open" (VScalar SNone)) tt
           (snapshot_o1 "canceled" (VScalar SNone))).
  - reflexivity.
  - reflexivity.
  - reflexivity.
  - vm_compute. reflexivity.
  - reflexivity.
  - vm_compute. reflexivity.
  - apply not_elem_of_nil.
Defined.

Lemma cancel_not_confirmed_leaves_order_tracked_witness :
  let b' := (cancel (exchange_cancel_answers "open") 0%nat None broker_o1).1 in
  (cancel (exchange_cancel_answers "open") 0%nat None broker_o1).2 = Ok 0%nat
  /\ open_orders b' = open_orders broker_o1
  /\ heap b' = heap broker_o1
  /\ CCXTOrder.status <$> heap b' !! 0%nat = Some Created
  /\ notifs b' = notifs broker_o1
  /\ calls b'
     = calls broker_o1
       ++ [CallFetchOrder (str "o1") "BTC/USD" ∅;
           CallCancelOrder (str "o1") "BTC/USD" ∅].
Proof.
  apply (cancel_not_confirmed_leaves_order_tracked
           (exchange_cancel_answers "open") broker_o1 0%nat None
           (tracked_order "o1") (str "o1") tt
           (snapshot_o1 "open" (VScalar SNone)) tt
           (snapshot_o1 "open" (VScalar SNone))).
  - reflexivity.
  - reflexivity.
  - reflexivity.
  - vm_compute. reflexivity.
  - reflexivity.
  - vm_compute. discriminate.
Defined.

(** C10 fails on the code as it is stated: a reply to the cancel call that
    does not hold the field of the canceled condition does not satisfy the
    condition, and the comparison of line 365 raises KeyError instead of
    returning the order.  Here the mapping table is the one of the class
    docstring (canceled is result = 1) and the reply is an order snapshot
    with a status and no "result". *)
Lemma cancel_reply_without_field_raises :
  ~ unconfirmed_cancel_returns_order (exchange_cancel_answers "canceled")
      broker_docstring_o1_o2 0%nat None.
Proof.
  intros H.
  assert (Hrun :
    (cancel (exchange_cancel_answers "canceled") 0%nat None
       broker_docstring_o1_o2).2
    = Raise (KeyError "result")) by (vm_compute; reflexivity).
  specialize (H (tracked_order "o1") (str "o1") tt
                (snapshot_o1 "open" (VScalar SNone)) tt
                (snapshot_o1 "canceled" (VScalar SNone))).
  rewrite Hrun in H. discriminate H.
  - reflexivity.
  - reflexivity.
  - reflexivity.
  - vm_compute. reflexivity.
  - reflexivity.
  - vm_compute. discriminate.
Qed.


(** Two open orders, the first reported closed and the second open: the
    first is completed, queued once and removed. *)
Lemma terminal_order_notified_once_and_removed_witness :
  fate 0%nat (Some Completed) broker_o1_o2
    (next exchange_o1_closed broker_o1_o2).1.
Proof.
  pose proof (terminal_order_notified_once_and_removed exchange_o1_closed
                broker_o1_o2 [] 0%nat [1%nat] (tracked_order "o1")
                NoDup_two_orders eq_refl eq_refl) as [_ H].
  apply (H broker_o1_o2
           (fetch_and_apply_fills exchange_o1_closed 0%nat broker_o1_o2).1
           (snapshot_o1 "closed" (VScalar SNone)) true false).
  - reflexivity.
  - vm_compute. reflexivity.
  - vm_compute. reflexivity.
  - vm_compute. reflexivity.
Defined.

(** ** The further properties on concrete brokers *)

Lemma consistent_two_orders : consistent broker_o1_o2.
Proof.
  split; [exact NoDup_two_orders|].
  intros r Hr. cbn in Hr.
  apply elem_of_cons in Hr as [->|Hr];
    [|apply list_elem_of_singleton in Hr; subst r];
    split; try (cbn; lia); by eexists.
Defined.

(** A limit sell of 1 at 100 that the exchange accepts as order "o1": the
    object tracks a size of -1. *)
Lemma submit_tracks_the_created_order_witness :
  let out := _submit exchange_accepts_sell 7%nat btc_usd (Some Limit) "sell" 1
               (Some 100) ∅ broker_o1 in
  out.2 = Ok (Some 1%nat)
  /\ open_orders out.1 = [0%nat; 1%nat]
  /\ notifs out.1 = [1%nat]
  /\ heap out.1 !! 1%nat
     = Some {| CCXTOrder.owner := 7%nat;
               CCXTOrder.data := btc_usd;
               CCXTOrder.ccxt_order := snapshot_sell_o1;
               CCXTOrder.executed_fills := [];
               CCXTOrder.ordtype := Sell;
               CCXTOrder.size := -1;
               CCXTOrder.price := num 100;
               CCXTOrder.status := Created;
               CCXTOrder.executed := [] |}
  /\ calls out.1
     = [CallCreateOrder "BTC/USD" "limit" "sell" 1 (Some 100)
          {[ "created" := num 1700000000000 ]};
        CallFetchOrder (str "o1") "BTC/USD"
          {[ "created" := num 1700000000000 ]}].
Proof.
  intros out.
  pose proof (submit_tracks_the_created_order exchange_accepts_sell broker_o1
                7%nat btc_usd (Some Limit) "sell" 1 (Some 100) ∅
                tt snapshot_sell_o1 (str "o1") tt snapshot_sell_o1
                (str "sell") 1 (num 100)) as H.
  cbv zeta in H. fold out in H.
  destruct H as (H1 & H2 & H3 & H4 & _ & _ & H7 & _).
  - lia.
  - discriminate.
  - reflexivity.
  - reflexivity.
  - vm_compute. reflexivity.
  - reflexivity.
  - vm_compute. reflexivity.
  - vm_compute. reflexivity.
  - vm_compute. reflexivity.
  - split; [exact H1|]. split; [exact H2|]. split; [exact H3|].
    split; [rewrite H4; vm_compute; reflexivity|].
    rewrite H7. vm_compute. reflexivity.
Defined.

Lemma submit_without_order_tracks_nothing_witness :
  let out := _submit exchange_o1_closed 7%nat btc_usd (Some Limit) "buy" 1
               (Some 100) ∅ broker_o1 in
  open_orders out.1 = open_orders broker_o1 /\ notifs out.1 = notifs broker_o1.
Proof.
  apply (submit_without_order_tracks_nothing exchange_o1_closed broker_o1
           7%nat btc_usd (Some Limit) "buy" 1 (Some 100) ∅).
  intros r. vm_compute. discriminate.
Defined.

Lemma next_keeps_the_broker_consistent_witness :
  consistent (next exchange_o1_closed broker_o1_o2).1.
Proof.
  apply (next_keeps_the_broker_consistent exchange_o1_closed broker_o1_o2
           consistent_two_orders).
Defined.

Lemma submit_keeps_the_broker_consistent_witness :
  consistent
    (_submit exchange_short_eth 7%nat btc_usd (Some Limit) "buy" 1 (Some 100)
       ∅ broker_o1_o2).1.
Proof.
  apply (submit_keeps_the_broker_consistent exchange_short_eth broker_o1_o2
           7%nat btc_usd (Some Limit) "buy" 1 (Some 100) ∅
           consistent_two_orders).
Defined.

Lemma cancel_confirmed_removes_and_notifies_witness :
  let out := cancel (exchange_cancel_answers "canceled") 0%nat None
               broker_o1_o2 in
  out.2 = Ok 0%nat
  /\ open_orders out.1 = [1%nat]
  /\ heap out.1
     = <[0%nat := CCXTOrder.with_status Canceled (tracked_order "o1")]>
         (heap broker_o1_o2)
  /\ notifs out.1 = notifs broker_o1_o2 ++ [0%nat]
  /\ new_calls broker_o1_o2 out.1
     = [CallFetchOrder (str "o1") "BTC/USD" ∅;
        CallCancelOrder (str "o1") "BTC/USD" ∅]
  /\ positions out.1 = positions broker_o1_o2
  /\ cash out.1 = cash broker_o1_o2
  /\ value out.1 = value broker_o1_o2.
Proof.
  apply (cancel_confirmed_removes_and_notifies
           (exchange_cancel_answers "canceled") broker_o1_o2 0%nat None
           (tracked_order "o1") (str "o1") tt
           (snapshot_o1 "open" (VScalar SNone)) tt
           (snapshot_o1 "canceled" (VScalar SNone)) [1%nat]).
  - reflexivity.
  - reflexivity.
  - reflexivity.
  - vm_compute. reflexivity.
  - reflexivity.
  - vm_compute. reflexivity.
  - reflexivity.
Defined.

Lemma cancel_keeps_the_broker_consistent_witness :
  consistent
    (cancel (exchange_cancel_answers "canceled") 0%nat None broker_o1_o2).1.
Proof.
  apply (cancel_keeps_the_broker_consistent
           (exchange_cancel_answers "canceled") broker_o1_o2 0%nat None
           consistent_two_orders).
Defined.


Lemma close_raises_on_entry_without_symbol_witness :
  close exchange_unreadable_position 0%nat eth_usd None false ∅
    (new_broker tt Mapping.default)
  = (with_store tt CallGetPositions (new_broker tt Mapping.default),
     Raise (KeyError "symbol")).
Proof.
  apply (close_raises_on_entry_without_symbol exchange_unreadable_position
           (new_broker tt Mapping.default) 0%nat eth_usd None ∅ tt
           [ {[ "symbol" := SStr "BTCUSD"; "positionAmt" := SNum 5 ]} ]
           {[ "positionAmt" := SNum (-2) ]} []).
  - reflexivity.
  - apply Forall_singleton. exists (SStr "BTCUSD").
    split; vm_compute; reflexivity.
  - vm_compute. reflexivity.
Defined.

(** The identifier "f1" is already recorded; the poll executes the fill
    again. *)
Lemma poll_executes_every_listed_fill_witness :
  let b1 := (next exchange_open_with_f1 broker_o1).1 in
  exists o,
    heap b1 !! 0%nat = Some o
    /\ CCXTOrder.executed_fills o = [str "f1"]
    /\ (fetch_and_apply_fills exchange_open_with_f1 0%nat b1).2
       = Ok (snapshot_o1 "open" (VList [fill_f1]))
    /\ heap (fetch_and_apply_fills exchange_open_with_f1 0%nat b1).1
       = <[0%nat :=
             CCXTOrder.with_fills [str "f1"; str "f1"]
               (CCXTOrder.with_executed
                  (CCXTOrder.executed o
                   ++ [(SStr "2023-11-14T22:13:20Z", SNum 1, SNum 100)])
                  o)]> (heap b1).
Proof.
  intros b1.
  destruct (heap b1 !! 0%nat) as [o|] eqn:Ho;
    [|exfalso; vm_compute in Ho; discriminate].
  assert (Hfills : CCXTOrder.executed_fills o = [str "f1"]).
  { assert (H : CCXTOrder.executed_fills <$> heap b1 !! 0%nat
                = Some [str "f1"]) by (vm_compute; reflexivity).
    rewrite Ho in H. by injection H. }
  assert (Hid : CCXTOrder.ccxt_order o !! "id" = Some (str "o1")).
  { assert (H : (fun x => CCXTOrder.ccxt_order x !! "id") <$> heap b1 !! 0%nat
                = Some (Some (str "o1"))) by (vm_compute; reflexivity).
    rewrite Ho in H. by injection H. }
  assert (Hdata : dataname (CCXTOrder.data o) = "BTC/USD").
  { assert (H : (fun x => dataname (CCXTOrder.data x)) <$> heap b1 !! 0%nat
                = Some "BTC/USD") by (vm_compute; reflexivity).
    rewrite Ho in H. by injection H. }
  exists o. split; [done|]. split; [done|].
  rewrite (poll_executes_every_listed_fill exchange_open_with_f1 b1 0%nat o
             (str "o1") tt (snapshot_o1 "open" (VList [fill_f1])) [fill_f1]
             [(SStr "2023-11-14T22:13:20Z", SNum 1, SNum 100, SStr "f1")]
             Ho Hid).
  - cbn [fst snd heap with_heap with_store]. rewrite Hfills. done.
  - rewrite Hdata. reflexivity.
  - vm_compute. reflexivity.
  - rewrite Hfills. apply Forall_singleton. by eexists.
  - assert (H : (fun x => executed_size (CCXTOrder.executed x))
                  <$> heap b1 !! 0%nat = Some 1) by (vm_compute; reflexivity).
    rewrite Ho in H. injection H as ->. lia.
  - constructor; [|constructor].
    unfold fill_holds. repeat split; vm_compute; reflexivity.
  - reflexivity.
Defined.

Lemma poll_without_trades_executes_nothing_witness :
  fetch_and_apply_fills exchange_o1_closed 0%nat broker_o1
  = (with_store tt (CallFetchOrder (str "o1") "BTC/USD" params_future)
       broker_o1,
     Ok (snapshot_o1 "closed" (VScalar SNone))).
Proof.
  apply (poll_without_trades_executes_nothing exchange_o1_closed broker_o1
           0%nat (tracked_order "o1") (str "o1") tt
           (snapshot_o1 "closed" (VScalar SNone))).
  - reflexivity.
  - reflexivity.
  - reflexivity.
  - vm_compute. reflexivity.
Defined.

(** The snapshot says closed, and the order is not completed. *)
Lemma poll_without_trades_key_raises_witness :
  reconcile_order exchange_without_trades 0%nat broker_o1
  = (with_store tt (CallFetchOrder (str "o1") "BTC/USD" params_future)
       broker_o1,
     Raise (KeyError "trades")).
Proof.
  apply (poll_without_trades_key_raises exchange_without_trades broker_o1
           0%nat (tracked_order "o1") (str "o1") tt
           (delete "trades" (snapshot_o1 "closed" (VScalar SNone)))).
  - reflexivity.
  - reflexivity.
  - reflexivity.
  - vm_compute. reflexivity.
Defined.


Lemma open_or_canceled_snapshot_keeps_the_ledger_witness :
  let out := reconcile_order exchange_o1_closed 1%nat broker_o1_o2 in
  positions out.1 = positions broker_o1_o2
  /\ cash out.1 = cash broker_o1_o2
  /\ value out.1 = value broker_o1_o2
  /\ balance_calls out.1 = balance_calls broker_o1_o2.
Proof.
  apply (open_or_canceled_snapshot_keeps_the_ledger exchange_o1_closed
           broker_o1_o2 1%nat
           (fetch_and_apply_fills exchange_o1_closed 1%nat broker_o1_o2).1
           (snapshot_o1 "open" (VScalar SNone))).
  - vm_compute. reflexivity.
  - vm_compute. reflexivity.
Defined.

(** Two open orders, "o1" and "o2": two fetches, in that order. *)
Lemma completed_pass_fetches_each_open_order_once_witness :
  fetch_calls (next exchange_o1_closed broker_o1_o2).1
  = fetch_calls broker_o1_o2
    ++ [CallFetchOrder (str "o1") "BTC/USD" params_future;
        CallFetchOrder (str "o2") "BTC/USD" params_future].
Proof.
  assert (Hrun : next exchange_o1_closed broker_o1_o2
                 = ((next exchange_o1_closed broker_o1_o2).1, Ok tt))
    by (vm_compute; reflexivity).
  destruct (completed_pass_fetches_each_open_order_once exchange_o1_closed
              broker_o1_o2 (next exchange_o1_closed broker_o1_o2).1 Hrun)
    as (polls & Hpolls & Hcalls).
  rewrite Hcalls. f_equal.
  change (open_orders broker_o1_o2) with [0%nat; 1%nat] in Hpolls.
  apply Forall2_cons_inv_l in Hpolls as (c0 & k0 & H0 & Hpolls & ->).
  apply Forall2_cons_inv_l in Hpolls as (c1 & k1 & H1 & Hpolls & ->).
  apply Forall2_nil_inv_l in Hpolls as ->.
  vm_compute in H0, H1. injection H0 as <-. injection H1 as <-.
  reflexivity.
Defined.

(** 3 USDT free out of 10. *)
Lemma wallet_balance_figures_witness :
  get_wallet_balance wallet_reply "USDT" ∅ broker_o1
  = (with_store_state tt broker_o1, Ok (SNum 3, SNum 10))
  /\ get_wallet_balance wallet_reply "BTC" ∅ broker_o1
     = (with_store_state tt broker_o1, Ok (SNum 0, SNum 0))
  /\ get_wallet_balance wallet_reply "ETH" ∅ broker_o1
     = (with_store_state tt broker_o1, Raise (KeyError "ETH")).
Proof.
  split; [|split].
  - etrans;
      [apply (wallet_balance_figures wallet_reply broker_o1 "USDT" ∅ tt
                {[ "free" := VDict {[ "USDT" := SNum 3; "BTC" := SNone ]};
                   "total" := VDict {[ "USDT" := SNum 10; "BTC" := SNone ]} ]}
                {[ "USDT" := SNum 3; "BTC" := SNone ]}
                {[ "USDT" := SNum 10; "BTC" := SNone ]});
       [reflexivity | vm_compute; reflexivity | vm_compute; reflexivity]
      | vm_compute; reflexivity].
  - etrans;
      [apply (wallet_balance_figures wallet_reply broker_o1 "BTC" ∅ tt
                {[ "free" := VDict {[ "USDT" := SNum 3; "BTC" := SNone ]};
                   "total" := VDict {[ "USDT" := SNum 10; "BTC" := SNone ]} ]}
                {[ "USDT" := SNum 3; "BTC" := SNone ]}
                {[ "USDT" := SNum 10; "BTC" := SNone ]});
       [reflexivity | vm_compute; reflexivity | vm_compute; reflexivity]
      | vm_compute; reflexivity].
  - etrans;
      [apply (wallet_balance_figures wallet_reply broker_o1 "ETH" ∅ tt
                {[ "free" := VDict {[ "USDT" := SNum 3; "BTC" := SNone ]};
                   "total" := VDict {[ "USDT" := SNum 10; "BTC" := SNone ]} ]}
                {[ "USDT" := SNum 3; "BTC" := SNone ]}
                {[ "USDT" := SNum 10; "BTC" := SNone ]});
       [reflexivity | vm_compute; reflexivity | vm_compute; reflexivity]
      | vm_compute; reflexivity].
Defined.

Lemma get_orders_open_filters_by_symbol_witness :
  get_orders_open open_orders_reply false (Some "ETH/USD") broker_o1
  = (with_store_state tt broker_o1,
     Ok [ {[ "id" := str "o2"; "symbol" := str "ETH/USD" ]} ]).
Proof.
  etrans;
    [apply (get_orders_open_filters_by_symbol open_orders_reply broker_o1
              false (Some "ETH/USD") tt
              [ {[ "id" := str "o1"; "symbol" := str "BTC/USD" ]};
                {[ "id" := str "o2"; "symbol" := str "ETH/USD" ]} ])
    | vm_compute; reflexivity].
  - reflexivity.
  - intros s _ _. repeat constructor; by eexists.
Defined.

(** The endpoint of the docstring, posted. *)
Lemma method_name_of_an_endpoint_witness :
  method_str "Post" "order/{id}/cancel" = "private_postorder_id_cancel"
  /\ method_str "POST" "Order/{ID}/Cancel"
     = method_str "post" "order/{id}/cancel".
Proof.
  destruct (method_name_of_an_endpoint "Post" "order/{id}/cancel"
              eq_refl eq_refl) as (Hname & _).
  destruct (method_name_of_an_endpoint "POST" "Order/{ID}/Cancel"
              eq_refl eq_refl) as (_ & _ & _ & Hcase).
  split.
  - rewrite Hname. vm_compute. reflexivity.
  - rewrite <- Hcase. vm_compute. reflexivity.
Defined.
